(** * Gesture-driven particle formations: classifier, sampler, blending engine

    A shallow embedding of [types.ts], [App.tsx] (the detection loop and
    [analyzeGesture]), [utils/textSampler.ts] and
    [components/ParticleSystem.tsx] (the [useFrame] tick).

    Number model. In the embedding of the components a JavaScript [number]
    is idealised as a real number of the Standard Library ([R]): rounding of
    IEEE doubles, the narrowing of a store into a [Float32Array], infinities
    and NaN are not represented there, and what is proved of it is which
    expression the code evaluates, and bounds that rounding keeps.  Where
    rounding decides a property (the openness at a given distance, the run
    of the blend step), module [IEEE] reads the same expressions in binary64
    with binary32 stores.  A read that JavaScript answers with [undefined]
    is an [option]; where the source would go on computing with it (and so
    with NaN) the embedded function answers [None].  Reading a property of
    [undefined] raises [TypeError], as in the source. *)

From Stdlib Require Import Reals Lra Lia ZArith QArith Qreals SpecFloat.
From stdpp Require Import base option list gmap strings.

Open Scope R_scope.

(** ** types.ts *)

Inductive GestureType : Set := NONE | ONE | TWO | THREE | FOUR.

(** [enum GestureType { NONE = 0, ONE = 1, ... }]: the numeric value. *)
Definition GestureType_value (g : GestureType) : nat :=
  match g with NONE => 0 | ONE => 1 | TWO => 2 | THREE => 3 | FOUR => 4 end.

#[global] Instance GestureType_eq_dec : EqDecision GestureType.
Proof. solve_decision. Defined.

(** [{ x: number; y: number }]: the shape of [HandState.position]; the
    classifier reads the same two fields of a landmark. *)
Record Vec2 : Type := mkVec2 { x : R; y : R }.

Record HandState : Type := mkHandState {
  gesture : GestureType;
  openness : R;
  position : Vec2
}.

(** A landmark as the classifier sees it: its [x] and [y]. *)
Abbreviation Landmark := Vec2 (only parsing).

(** ** Numbers and exceptions *)

(** [a < b] on numbers, as a boolean. *)
Definition Rltb (a b : R) : bool := if Rlt_dec a b then true else false.

Definition Math_min (a b : R) : R := Rmin a b.
Definition Math_max (a b : R) : R := Rmax a b.
Definition Math_sqrt (a : R) : R := sqrt a.
Definition Math_sin (a : R) : R := sin a.
Definition Math_cos (a : R) : R := cos a.
Definition Math_acos (a : R) : R := acos a.
Definition Math_PI : R := PI.

(** [Math.pow(b, e)] for the literal exponents of the source. *)
Definition Math_pow (b : R) (e : nat) : R := b ^ e.

(** [Math.cbrt]: the real cube root, odd in its argument. *)
Definition Math_cbrt (a : R) : R :=
  if Rlt_dec 0 a then Rpower a (/ 3)
  else if Rlt_dec a 0 then - Rpower (- a) (/ 3)
  else 0.

(** [Math.floor], to an integer. *)
Definition Math_floor (a : R) : Z := Int_part a.

Inductive exn : Set := TypeError.

Inductive Result (A : Type) : Type :=
| Ok (a : A)
| Throw (e : exn).
Arguments Ok {A} a.
Arguments Throw {A} e.

Definition bindR {A B : Type} (m : Result A) (k : A -> Result B) : Result B :=
  match m with
  | Ok a => k a
  | Throw e => Throw e
  end.

Declare Scope result_scope.
Delimit Scope result_scope with result.
Notation "'let*' v ':=' m 'in' k" := (bindR m (fun v => k))
  (at level 10, v name, m at level 100, k at level 200,
   only parsing) : result_scope.

(** [arr[i]] on a JavaScript array whose element is then dereferenced
    ([arr[i].x]): an absent element is [undefined], reading a property of
    it raises [TypeError]. *)
Definition element {A : Type} (arr : list A) (i : nat) : Result A :=
  match arr !! i with
  | Some a => Ok a
  | None => Throw TypeError
  end.

(** ** App.tsx: the gesture classifier *)

Module Classifier.

Local Open Scope result_scope.

(** The initial value of [useState<HandState>]. *)
Definition initialHandState : HandState :=
  {| gesture := NONE; openness := 1.0; position := {| x := 0; y := 0 |} |}.

Definition isFingerUp (landmarks : list Landmark) (tipIdx pipIdx : nat)
  : Result bool :=
  let* tip := element landmarks tipIdx in
  let* pip := element landmarks pipIdx in
  Ok (Rltb (y tip) (y pip)).

(** [analyzeGesture(landmarks)]: the value handed to [setHandState], or the
    exception raised before [setHandState] is reached. *)
Definition analyzeGesture (landmarks : list Landmark) : Result HandState :=
  let* indexUp := isFingerUp landmarks 8 6 in
  let* middleUp := isFingerUp landmarks 12 10 in
  let* ringUp := isFingerUp landmarks 16 14 in
  let* pinkyUp := isFingerUp landmarks 20 18 in
  let* thumbUp :=
    (let* l4 := element landmarks 4 in
     let* l3 := element landmarks 3 in
     Ok (Rltb (x l4) (x l3))) in
  let fingersCount := 0%nat in
  let fingersCount := if indexUp then S fingersCount else fingersCount in
  let fingersCount := if middleUp then S fingersCount else fingersCount in
  let fingersCount := if ringUp then S fingersCount else fingersCount in
  let fingersCount := if pinkyUp then S fingersCount else fingersCount in
  let gesture :=
    if (fingersCount =? 1)%nat then ONE
    else if (fingersCount =? 2)%nat then TWO
    else if (fingersCount =? 3)%nat then THREE
    else if (fingersCount =? 4)%nat then FOUR
    else NONE in
  let* thumbTip := element landmarks 4 in
  let* indexTip := element landmarks 8 in
  let distance :=
    Math_sqrt (Math_pow (x thumbTip - x indexTip) 2 +
               Math_pow (y thumbTip - y indexTip) 2) in
  let openness := Math_min (Math_max ((distance - 0.05) * 4) 0) 1.5 in
  let* wrist := element landmarks 0 in
  let xPos := (x wrist - 0.5) * -2 in
  let yPos := (y wrist - 0.5) * -2 in
  Ok {| gesture := gesture;
        openness := openness;
        position := {| x := xPos; y := yPos |} |}.

(** What [detectForVideo] hands back: [results.landmarks], one landmark
    list per detected hand; the field may be absent. *)
Record HandLandmarkerResult : Type := mkResult {
  landmarks : option (list (list Landmark))
}.

(** One run of [detect] on the component state [handState].  [ready] is the
    conjunction guarding the body (landmarker loaded, video at
    [readyState === 4]); [results] is what the detector answers for the
    frame.  The answer is the component state after the frame, or the
    exception that escapes [analyzeGesture]: no [setHandState] has run by
    then, so the state is the one before the frame (and the call that
    schedules the next [detect] is not reached). *)
Definition detect (ready : bool) (results : HandLandmarkerResult)
    (handState : HandState) : Result HandState :=
  if ready then
    match landmarks results with
    | Some (hand :: _) => analyzeGesture hand
    | _ =>
        (* setHandState(prev => ({ ...prev, gesture: GestureType.NONE })) *)
        Ok {| gesture := NONE;
              openness := openness handState;
              position := position handState |}
    end
  else Ok handState.

(** The component state a frame leaves behind. *)
Definition stateAfter (handState : HandState) (r : Result HandState)
  : HandState :=
  match r with
  | Ok s => s
  | Throw _ => handState
  end.

End Classifier.

(** ** Loops, typed arrays, [Math.random] *)

(** [for (let i = start; i < start + n; i++) s = body(i, s)] in a monad. *)
Fixpoint for_loop {M : Type -> Type} `{!MBind M, !MRet M} {St : Type}
    (n start : nat) (body : nat -> St -> M St) (s : St) : M St :=
  match n with
  | O => mret s
  | S n' => s' ← body start s; for_loop n' (S start) body s'
  end.

(** The identity monad, for loops without effects. *)
Definition Id (A : Type) : Type := A.
#[global] Instance Id_ret : MRet Id := fun A a => a.
#[global] Instance Id_bind : MBind Id := fun A B k m => k m.

(** A [Float32Array]: a fixed-length sequence of numbers.  An assignment
    to an index past the end is ignored, which is what list insertion does;
    a read past the end is [undefined] ([None]). *)
Abbreviation Float32Array := (list R) (only parsing).

(** [new Float32Array(n)]: [n] zeros. *)
Definition new_Float32Array (n : nat) : Float32Array := replicate n 0.

(** A value of the half-open unit interval, the range of [Math.random()]. *)
Record unit_interval : Type := mkUnit {
  unit_value :> R;
  unit_range : 0 <= unit_value < 1
}.

(** Computations that call [Math.random]: the state is the number of calls
    made so far, the [k]-th call answers [random k] for a stream [random]
    that is fixed per run. *)
Definition Rand (A : Type) : Type := (nat -> unit_interval) -> nat -> A * nat.
#[global] Instance Rand_ret : MRet Rand := fun A a _ k => (a, k).
#[global] Instance Rand_bind : MBind Rand :=
  fun A B f m random k => let '(a, k') := m random k in f a random k'.

Definition Math_random : Rand R := fun random k => (unit_value (random k), S k).

(** ** utils/textSampler.ts: the formation sampler *)

Module Sampler.

(** [arr[i]] for an index computed as a number. *)
Definition index {A : Type} (arr : list A) (i : Z) : option A :=
  if (i <? 0)%Z then None else arr !! Z.to_nat i.

(** The nested loops over the image: the coordinates [x, y] of every pixel
    whose red channel exceeds 128, in row-major order.  [data] is
    [imageData.data], four bytes per pixel. *)
Definition findWhitePixels (data : list Z) (width height : nat) : list nat :=
  for_loop (M := Id) height 0 (fun y validPixels =>
    for_loop (M := Id) width 0 (fun x validPixels =>
      let index := ((y * width + x) * 4)%nat in
      match data !! index with
      | Some v => if (128 <? v)%Z then validPixels ++ [x; y] else validPixels
      | None => validPixels
      end) validPixels) [].

(** One iteration of the placement loop of [samplePointsFromText].  With
    [Math.random()] in the unit interval and [validPixels] not empty both
    lookups find a pixel ([pixelIndex_in_range] below); the default stands
    for the [undefined] they cannot be. *)
Definition placeParticle (validPixels : list nat) (width height : nat)
    (i : nat) (positions : Float32Array) : Rand Float32Array :=
  u ← Math_random;
  let pixelIndex :=
    (Math_floor (u * (INR (length validPixels) / 2)) * 2)%Z in
  let px := default 0%nat (index validPixels pixelIndex) in
  let py := default 0%nat (index validPixels (pixelIndex + 1)) in
  let x := (INR px - INR width / 2) * 0.15 in
  let y := (- (INR py - INR height / 2)) * 0.15 in
  v ← Math_random;
  let z := (v - 0.5) * 2 in
  let positions := <[(i * 3)%nat := x]> positions in
  let positions := <[(i * 3 + 1)%nat := y]> positions in
  let positions := <[(i * 3 + 2)%nat := z]> positions in
  mret positions.

(** [samplePointsFromText(text, count, size)].  [getContext] is what
    [canvas.getContext('2d')] answers: nothing, or a context, given here by
    the bytes [getImageData] reads back once [text] is drawn at [size]
    pixels on the 200 by 200 canvas.  [count] is a number of particles, a
    natural number; every call of the repository passes [size]. *)
Definition samplePointsFromText
    (getContext : option (string -> R -> list Z))
    (text : string) (count : nat) (size : R) : Rand Float32Array :=
  match getContext with
  | None => mret (new_Float32Array (count * 3))
  | Some ctx =>
      let width := 200%nat in
      let height := 200%nat in
      let data := ctx text size in
      let validPixels := findWhitePixels data width height in
      let positions := new_Float32Array (count * 3) in
      if (length validPixels =? 0)%nat then mret positions
      else for_loop count 0 (placeParticle validPixels width height) positions
  end.

(** One iteration of the loop of [generateSphereCloud]. *)
Definition placeSpherePoint (radius : R) (i : nat) (positions : Float32Array)
  : Rand Float32Array :=
  u1 ← Math_random;
  let r := radius * Math_cbrt u1 in
  u2 ← Math_random;
  let theta := u2 * 2 * Math_PI in
  u3 ← Math_random;
  let phi := Math_acos (2 * u3 - 1) in
  let x := r * Math_sin phi * Math_cos theta in
  let y := r * Math_sin phi * Math_sin theta in
  let z := r * Math_cos phi in
  let positions := <[(i * 3)%nat := x]> positions in
  let positions := <[(i * 3 + 1)%nat := y]> positions in
  let positions := <[(i * 3 + 2)%nat := z]> positions in
  mret positions.

(** [generateSphereCloud(count, radius)]. *)
Definition generateSphereCloud (count : nat) (radius : R) : Rand Float32Array :=
  let positions := new_Float32Array (count * 3) in
  for_loop count 0 (placeSpherePoint radius) positions.

End Sampler.

(** ** components/ParticleSystem.tsx: the blending engine *)

Module Engine.

Definition PARTICLE_COUNT : nat := 3000.
Definition LERP_SPEED : R := 0.08.

(** The typed arrays the component allocates and mutates live in a store,
    addressed by reference: [positions] and the [array] of the geometry's
    position attribute are two names, and what matters is whether they name
    the same array. *)
Definition ref : Type := nat.

(** [arr[i]] for the array at reference [r]. *)
Definition read (h : gmap nat Float32Array) (r : ref) (i : nat) : option R :=
  arr ← h !! r; arr !! i.

(** [arr[i] = v] for the array at reference [r]. *)
Definition write (h : gmap nat Float32Array) (r : ref) (i : nat) (v : R)
  : gmap nat Float32Array :=
  alter (fun arr => <[i := v]> arr) r h.

(** The memoised [targets] object; its arrays are never written. *)
Record Targets : Type := mkTargets {
  sphere : Float32Array;
  char1 : Float32Array;
  char2 : Float32Array;
  char3 : Float32Array;
  char4 : Float32Array
}.

(** What [pointsRef.current] exposes to the frame callback. *)
Record Points : Type := mkPoints {
  geometry_attributes_position_array : ref;
  geometry_attributes_position_needsUpdate : bool;
  rotation_x : R;
  rotation_y : R
}.

(** The state of one mounted [ParticleSystem]. *)
Record ParticleSystem : Type := mkParticleSystem {
  targets : Targets;
  positions : ref;
  velocities : ref;
  pointsRef : option Points
}.

(** The first [useMemo]: the five formations, sampled in source order. *)
Definition makeTargets (getContext : option (string -> R -> list Z))
  : Rand Targets :=
  sphere ← Sampler.generateSphereCloud PARTICLE_COUNT 8;
  char1 ← Sampler.samplePointsFromText getContext "生" PARTICLE_COUNT 140;
  char2 ← Sampler.samplePointsFromText getContext "日" PARTICLE_COUNT 140;
  char3 ← Sampler.samplePointsFromText getContext "快" PARTICLE_COUNT 140;
  char4 ← Sampler.samplePointsFromText getContext "乐" PARTICLE_COUNT 140;
  mret {| sphere := sphere; char1 := char1; char2 := char2;
          char3 := char3; char4 := char4 |}.

(** The first render: the memoised values.  [new Float32Array(targets.sphere)]
    is a fresh copy of the sphere formation, stored at reference 0;
    [velocities] is a fresh zero array at reference 1.  Nothing is mounted
    yet: [pointsRef.current] is [null]. *)
Definition render (getContext : option (string -> R -> list Z))
  : Rand (gmap nat Float32Array * ParticleSystem) :=
  targets ← makeTargets getContext;
  let positions := 0%nat in
  let velocities := 1%nat in
  let h : gmap nat Float32Array :=
    <[velocities := new_Float32Array (PARTICLE_COUNT * 3)]>
      (<[positions := sphere targets]> ∅) in
  mret (h, {| targets := targets; positions := positions;
              velocities := velocities; pointsRef := None |}).

(** Mounting [<points ref={pointsRef}>] with
    [<bufferAttribute attach="attributes-position" array={positions} />]:
    the attribute's [array] is the [positions] array itself. *)
Definition mount (ps : ParticleSystem) : ParticleSystem :=
  {| targets := targets ps;
     positions := positions ps;
     velocities := velocities ps;
     pointsRef := Some {| geometry_attributes_position_array := positions ps;
                          geometry_attributes_position_needsUpdate := false;
                          rotation_x := 0;
                          rotation_y := 0 |} |}.

(** [THREE.MathUtils.lerp(x, y, t)]. *)
Definition MathUtils_lerp (a b t : R) : R := (1 - t) * a + t * b.

(** Step 1 of the frame callback: the formation the gesture selects. *)
Definition selectTarget (targets : Targets) (g : GestureType) : Float32Array :=
  match g with
  | ONE => char1 targets
  | TWO => char2 targets
  | THREE => char3 targets
  | FOUR => char4 targets
  | _ => sphere targets
  end.

(** Step 3 of the loop body for particle [i]: the target coordinates
    [(tx, ty, tz)] after the hand interaction.  [positions] is the memoised
    array of the component. *)
Definition adjustTarget (handState : HandState) (time : R)
    (targetPositions : Float32Array) (positions : ref) (i : nat)
    (h : gmap nat Float32Array) : option (R * R * R) :=
  let idx := (i * 3)%nat in
  tx ← targetPositions !! idx;
  ty ← targetPositions !! (idx + 1)%nat;
  tz ← targetPositions !! (idx + 2)%nat;
  if decide (gesture handState = NONE) then
    let expansionFactor := 0.5 + (openness handState * 1.5) in
    let tx := tx * expansionFactor in
    let ty := ty * expansionFactor in
    let tz := tz * expansionFactor in
    let noise := Math_sin (time + INR i * 0.1) * 0.2 in
    let tx := tx + noise in
    let ty := ty + Math_cos (time * 0.5 + INR i * 0.05) * 0.2 in
    Some (tx, ty, tz)
  else
    p ← read h positions idx;
    let ty := ty + Math_sin (time * 2 + p * 0.5) * 0.05 in
    Some (tx, ty, tz).

(** The loop body for particle [i]: target, distance, soft lerp in place. *)
Definition particle (handState : HandState) (time : R)
    (targetPositions : Float32Array) (positions currentPositions : ref)
    (i : nat) (h : gmap nat Float32Array) : option (gmap nat Float32Array) :=
  let idx := (i * 3)%nat in
  '(tx, ty, tz) ← adjustTarget handState time targetPositions positions i h;
  cx ← read h currentPositions idx;
  let dx := tx - cx in
  cy ← read h currentPositions (idx + 1)%nat;
  let dy := ty - cy in
  cz ← read h currentPositions (idx + 2)%nat;
  let dz := tz - cz in
  c ← read h currentPositions idx;
  let h := write h currentPositions idx (c + dx * LERP_SPEED) in
  c ← read h currentPositions (idx + 1)%nat;
  let h := write h currentPositions (idx + 1)%nat (c + dy * LERP_SPEED) in
  c ← read h currentPositions (idx + 2)%nat;
  let h := write h currentPositions (idx + 2)%nat (c + dz * LERP_SPEED) in
  Some h.

(** The [useFrame] callback at elapsed time [time]: the store and the
    component after the tick.  [None]: some read was [undefined]. *)
Definition useFrame (ps : ParticleSystem) (handState : HandState) (time : R)
    (h : gmap nat Float32Array)
  : option (gmap nat Float32Array * ParticleSystem) :=
  match pointsRef ps with
  | None => Some (h, ps)
  | Some current =>
      let currentPositions := geometry_attributes_position_array current in
      let targetPositions := selectTarget (targets ps) (gesture handState) in
      h' ← for_loop PARTICLE_COUNT 0
             (particle handState time targetPositions (positions ps)
                currentPositions) h;
      Some (h',
            {| targets := targets ps;
               positions := positions ps;
               velocities := velocities ps;
               pointsRef := Some
                 {| geometry_attributes_position_array := currentPositions;
                    geometry_attributes_position_needsUpdate := true;
                    rotation_x :=
                      MathUtils_lerp (rotation_x current)
                        (y (position handState) * 0.2) 0.1;
                    rotation_y :=
                      MathUtils_lerp (rotation_y current)
                        (x (position handState) * 0.2) 0.1 |} |})
  end.

End Engine.

(** ** The specification's vocabulary

    Definitions written from the words of the specification; the theorems
    below compare them with the embedded code. *)

Module Spec.

(** The count-to-gesture table of the classifier. *)
Definition gesture_of_count (k : nat) : GestureType :=
  match k with
  | 1%nat => ONE
  | 2%nat => TWO
  | 3%nat => THREE
  | 4%nat => FOUR
  | _ => NONE
  end.

(** A finger is up when its tip's Y is strictly less than its PIP's Y. *)
Definition finger_up (lms : list Landmark) (tip pip : nat) : Prop :=
  exists t p, lms !! tip = Some t /\ lms !! pip = Some p /\ y t < y p.


(** Euclidean distance of two points of the landmark plane. *)
Definition distance (a b : Vec2) : R :=
  sqrt ((x a - x b) * (x a - x b) + (y a - y b) * (y a - y b)).

(** The blend step: move [current] a fraction 0.08 of the way to [target]. *)
Definition blend (target current : R) : R :=
  current + (target - current) * 0.08.

(** The per-tick target of slot [i] from the raw formation point
    [(rx, ry, rz)], the signal, the time and the particle's current X. *)
Definition target (g : GestureType) (openness t : R) (i : nat)
    (raw : R * R * R) (currentX : R) : R * R * R :=
  let '(rx, ry, rz) := raw in
  match g with
  | NONE =>
      let expansionFactor := 0.5 + openness * 1.5 in
      (rx * expansionFactor + sin (t + INR i * 0.1) * 0.2,
       ry * expansionFactor + cos (t * 0.5 + INR i * 0.05) * 0.2,
       rz * expansionFactor)
  | _ => (rx, ry + sin (t * 2 + currentX * 0.5) * 0.05, rz)
  end.

(** The formation a gesture stands for. *)
Definition formation (tg : Engine.Targets) (g : GestureType) : Float32Array :=
  match g with
  | NONE => Engine.sphere tg
  | ONE => Engine.char1 tg
  | TWO => Engine.char2 tg
  | THREE => Engine.char3 tg
  | FOUR => Engine.char4 tg
  end.

(** Glyph rasterisation left no filled pixel: no red channel of the 200 by
    200 canvas exceeds the threshold 128. *)
Definition no_filled_pixel (data : list Z) : Prop :=
  forall px py v, (px < 200)%nat -> (py < 200)%nat ->
    data !! ((py * 200 + px) * 4)%nat = Some v -> (v <= 128)%Z.

(** A landmark frame with no finger raised whose wrist sits mid-image,
    repeated to a given length. *)
Definition still_hand (n : nat) : list Landmark :=
  replicate n {| x := 0.5; y := 0.5 |}.

End Spec.

(** ** The mounted component

    What holds of the component and the store from the first frame on. *)

Module Mounted.

Import Engine.

(** The component is mounted on the store [h]: [pointsRef.current] is set
    and its position attribute is the [positions] array, which holds
    [PARTICLE_COUNT] particles, as does every formation. *)
Definition mounted (ps : ParticleSystem) (h : gmap nat (list R)) : Prop :=
  (exists current,
     pointsRef ps = Some current /\
     geometry_attributes_position_array current = positions ps) /\
  (exists buf,
     h !! positions ps = Some buf /\
     length buf = (3 * PARTICLE_COUNT)%nat) /\
  forall g, length (selectTarget (targets ps) g) = (3 * PARTICLE_COUNT)%nat.

(** The coordinate of a point on axis 0 (X), 1 (Y) or 2 (Z). *)
Definition coordinate (axis : nat) (p : R * R * R) : R :=
  match axis with
  | 0%nat => p.1.1
  | 1%nat => p.1.2
  | _ => p.2
  end.

(** The loop of the frame callback on a mounted component (the attribute
    array is [positions]), from particle [start], [n] times. *)
Definition particles (ps : ParticleSystem) (handState : HandState) (time : R)
    (n start : nat) (h : gmap nat (list R)) : option (gmap nat (list R)) :=
  for_loop n start
    (particle handState time
       (selectTarget (targets ps) (gesture handState))
       (positions ps) (positions ps)) h.

(** The frame driver: [n] ticks under one signal, tick [j] at elapsed time
    [clock j]. *)
Fixpoint ticks (handState : HandState) (clock : nat -> R) (n : nat)
    (ps : ParticleSystem) (h : gmap nat (list R))
  : option (gmap nat (list R) * ParticleSystem) :=
  match n with
  | O => Some (h, ps)
  | S n' =>
      '(h1, ps1) ← ticks handState clock n' ps h;
      useFrame ps1 handState (clock n') h1
  end.

End Mounted.

(** ** The tick on one buffer

    Once the component is mounted, [positions] and the array of the
    position attribute are one array: the loop body then reads and writes a
    single buffer.  This is that view of the loop body, on the buffer alone,
    in the vocabulary of the specification. *)

Module OneBuffer.

(** The new coordinates of particle [i], from the buffer before its step. *)
Definition slot (handState : HandState) (time : R)
    (targetPositions buf : list R) (i : nat) : option (R * R * R) :=
  rx ← targetPositions !! (i * 3)%nat;
  ry ← targetPositions !! (i * 3 + 1)%nat;
  rz ← targetPositions !! (i * 3 + 2)%nat;
  cx ← buf !! (i * 3)%nat;
  cy ← buf !! (i * 3 + 1)%nat;
  cz ← buf !! (i * 3 + 2)%nat;
  let '(tx, ty, tz) :=
    Spec.target (gesture handState) (openness handState) time i
      (rx, ry, rz) cx in
  Some (Spec.blend tx cx, Spec.blend ty cy, Spec.blend tz cz).

(** The step of particle [i] on the buffer. *)
Definition particle (handState : HandState) (time : R)
    (targetPositions : list R) (i : nat) (buf : list R) : option (list R) :=
  '(nx, ny, nz) ← slot handState time targetPositions buf i;
  Some (<[(i * 3 + 2)%nat := nz]>
          (<[(i * 3 + 1)%nat := ny]> (<[(i * 3)%nat := nx]> buf))).

End OneBuffer.

(** ** Sample inputs *)

Module Samples.

Import Engine.

(** A raised fingertip and a landmark at mid-height. *)
Definition raised : Landmark := {| x := 0.5; y := 0.3 |}.
Definition mid : Landmark := {| x := 0.5; y := 0.5 |}.

(** 21 landmarks, thumb tip 0.175 to the right of the index tip. *)
Definition spread : list Landmark :=
  <[4%nat := {| x := 0.675; y := 0.5 |}]> (Spec.still_hand 21).

(** 21 landmarks, index and middle finger raised. *)
Definition two_fingers : list Landmark :=
  <[8%nat := raised]> (<[12%nat := raised]> (Spec.still_hand 21)).

(** A signal left by an earlier frame. *)
Definition earlier_signal : HandState :=
  {| gesture := TWO; openness := 0.6; position := {| x := 0.25; y := -0.5 |} |}.

(** [Math.random()] answering 0 every time. *)
Definition zero_draw (k : nat) : unit_interval :=
  {| unit_value := 0; unit_range := conj (Rle_refl 0) Rlt_0_1 |}.

(** A canvas on which nothing gets drawn: every byte is 0. *)
Definition dark_canvas (text : string) (size : R) : list Z :=
  replicate (200 * 200 * 4) 0%Z.

(** A mounted component whose formations put every coordinate at 10, on a
    store whose position buffer is all zero; a held glyph signal. *)
Definition flat (v : R) : list R := replicate (3 * PARTICLE_COUNT) v.

Definition system : ParticleSystem :=
  mount {| targets := {| sphere := flat 10; char1 := flat 10;
                         char2 := flat 10; char3 := flat 10;
                         char4 := flat 10 |};
           positions := 0%nat;
           velocities := 1%nat;
           pointsRef := None |}.

Definition store : gmap nat (list R) :=
  <[1%nat := flat 0]> (<[0%nat := flat 0]> ∅).

Definition glyph_signal : HandState :=
  {| gesture := ONE; openness := 0.6; position := {| x := 0; y := 0 |} |}.

(** The component and the store right after the first render and mount, on
    a page without a 2D canvas and with [Math.random()] stuck at 0. *)
Definition first_system : ParticleSystem :=
  mount (render None zero_draw 0%nat).1.2.

Definition first_store : gmap nat (list R) :=
  (render None zero_draw 0%nat).1.1.

End Samples.

(** ** The detection loop and the frame driver *)

Module Driver.

Import Classifier Engine.

(** The detection loop: [detect] runs once per animation frame, on what the
    detector answers for that frame.  An exception that escapes [detect]
    ends the loop (the next frame is never requested) and leaves the signal
    as it was. *)
Fixpoint detections (frames : list (bool * HandLandmarkerResult))
    (handState : HandState) : HandState :=
  match frames with
  | [] => handState
  | (ready, results) :: rest =>
      match detect ready results handState with
      | Ok s => detections rest s
      | Throw _ => handState
      end
  end.

(** The render loop: tick [j] runs the frame callback at elapsed time
    [clock j] under the signal [signal j] the component holds by then. *)
Fixpoint animate (signal : nat -> HandState) (clock : nat -> R) (n : nat)
    (ps : ParticleSystem) (h : gmap nat (list R))
  : option (gmap nat (list R) * ParticleSystem) :=
  match n with
  | O => Some (h, ps)
  | S n' =>
      '(h1, ps1) ← animate signal clock n' ps h;
      useFrame ps1 (signal n') (clock n') h1
  end.

End Driver.

(** ** Where a particle is headed

    The target of a tick is a point of the formation, scaled in free mode,
    plus a bounded oscillation. *)

Module Tracking.

(** The formation coordinate a particle is drawn to: the sphere coordinate
    scaled by the expansion factor in free mode, the glyph coordinate
    otherwise. *)
Definition base (g : GestureType) (openness raw : R) : R :=
  match g with
  | NONE => raw * (0.5 + openness * 1.5)
  | _ => raw
  end.

(** The amplitude of the oscillation added to the target on an axis: the
    idle noise on X and Y in free mode, the wobble on Y under a glyph. *)
Definition sway (g : GestureType) (axis : nat) : R :=
  match g, axis with
  | NONE, 0%nat => 0.2
  | NONE, 1%nat => 0.2
  | NONE, _ => 0
  | _, 1%nat => 0.05
  | _, _ => 0
  end.

(** How far from the origin, on an axis, the formations built at
    initialisation reach: the sphere has radius 8, a glyph fills a canvas of
    200 pixels at 0.15 per pixel. *)
Definition reach (g : GestureType) : R :=
  match g with
  | NONE => 8
  | _ => 15
  end.

End Tracking.

(** ** What the scan of the canvas collects *)

Module Pixels.

(** The pixel at column [px], row [py] is filled: its red channel exceeds
    the threshold. *)
Definition bright (data : list Z) (width px py : nat) : Prop :=
  exists v, data !! ((py * width + px) * 4)%nat = Some v /\ (128 < v)%Z.

(** [validPixels] lists the pixel: some pair of consecutive entries, at an
    even offset, is [px, py]. *)
Definition listed (validPixels : list nat) (px py : nat) : Prop :=
  exists j, validPixels !! (2 * j)%nat = Some px /\
            validPixels !! (2 * j + 1)%nat = Some py.

(** A list of pixels, flattened the way [push(x, y)] lays it out. *)
Definition flatten (pixels : list (nat * nat)) : list nat :=
  pixels ≫= (fun p => [p.1; p.2]).

(** The coordinates [placeParticle] computes from two draws [u] and [v]. *)
Definition glyphPoint (validPixels : list nat) (width height : nat)
    (u v : R) : R * R * R :=
  let pixelIndex :=
    (Math_floor (u * (INR (length validPixels) / 2)) * 2)%Z in
  let px := default 0%nat (Sampler.index validPixels pixelIndex) in
  let py := default 0%nat (Sampler.index validPixels (pixelIndex + 1)) in
  ((INR px - INR width / 2) * 0.15,
   (- (INR py - INR height / 2)) * 0.15,
   (v - 0.5) * 2).

(** The coordinates [placeSpherePoint] computes from three draws. *)
Definition spherePoint (radius u1 u2 u3 : R) : R * R * R :=
  let r := radius * Math_cbrt u1 in
  let theta := u2 * 2 * Math_PI in
  let phi := Math_acos (2 * u3 - 1) in
  (r * Math_sin phi * Math_cos theta,
   r * Math_sin phi * Math_sin theta,
   r * Math_cos phi).

(** [positions[i*3], positions[i*3+1], positions[i*3+2] = p]. *)
Definition put (i : nat) (p : R * R * R) (positions : list R) : list R :=
  <[(i * 3 + 2)%nat := p.2]>
    (<[(i * 3 + 1)%nat := p.1.2]> (<[(i * 3)%nat := p.1.1]> positions)).

(** The point stored for particle [i]. *)
Definition point_at (positions : list R) (i : nat) : option (R * R * R) :=
  a ← positions !! (i * 3)%nat;
  b ← positions !! (i * 3 + 1)%nat;
  c ← positions !! (i * 3 + 2)%nat;
  Some (a, b, c).

End Pixels.

(** ** More sample inputs *)

Module MoreSamples.

Import Engine.

(** A canvas that is white all over: every byte is 255. *)
Definition white_canvas (text : string) (size : R) : list Z :=
  replicate (200 * 200 * 4) 255%Z.

(** [Math.random()] answering one half every time. *)
Definition half_draw (k : nat) : unit_interval :=
  {| unit_value := 0.5; unit_range := ltac:(lra) |}.

(** A frame like [Samples.spread] with the thumb joint and a landmark past
    the hand moved elsewhere. *)
Definition spread_variant : list Landmark :=
  <[3%nat := {| x := 0.1; y := 0.9 |}]> Samples.spread
    ++ [{| x := 0.7; y := 0.7 |}].

(** A detector answer with no hand, and one with the hand [Samples.spread]. *)
Definition no_hand : Classifier.HandLandmarkerResult :=
  Classifier.mkResult (Some []).

Definition one_hand : Classifier.HandLandmarkerResult :=
  Classifier.mkResult (Some [Samples.spread]).

(** The store of [Samples.store] with particle 1 moved away. *)
Definition other_store : gmap nat (list R) :=
  <[0%nat := <[3%nat := 7]> (Samples.flat 0)]> Samples.store.

(** The glyph signal of [Samples.glyph_signal] seen with another hand
    position and openness. *)
Definition glyph_signal_elsewhere : HandState :=
  {| gesture := ONE; openness := 1.2; position := {| x := -0.4; y := 0.8 |} |}.

End MoreSamples.

(** ** Where the point group is turned

    Step 4 of the frame callback eases the rotation of the point group
    toward the hand position. *)

Module Turning.

Import Engine.

(** The rotation [(x, y)] after [n] ticks, tick [j] under the signal
    [signal j], from the rotation [r0]: each tick replaces it by
    [MathUtils.lerp(rotation.x, position.y * 0.2, 0.1)] and
    [MathUtils.lerp(rotation.y, position.x * 0.2, 0.1)]. *)
Fixpoint rotation (signal : nat -> HandState) (r0 : R * R) (n : nat) : R * R :=
  match n with
  | O => r0
  | S n' =>
      let r := rotation signal r0 n' in
      (MathUtils_lerp r.1 (y (position (signal n')) * 0.2) 0.1,
       MathUtils_lerp r.2 (x (position (signal n')) * 0.2) 0.1)
  end.

End Turning.

(** ** The numeric kernels in the arithmetic of the source

    Where rounding decides a property, the expressions of the source are
    read in the arithmetic JavaScript runs them in: IEEE 754 binary64,
    round to nearest even, as specified by the Standard Library's
    [SpecFloat] (precision 53, [emax] 1024); a store into a [Float32Array]
    rounds to binary32 (precision 24, [emax] 128).  [Math.sqrt] is the
    correctly rounded square root and [Math.pow(b, 2)] the correctly rounded
    square. *)

Module IEEE.

Abbreviation binary64 := spec_float (only parsing).

Definition add : binary64 -> binary64 -> binary64 := SFadd 53 1024.
Definition sub : binary64 -> binary64 -> binary64 := SFsub 53 1024.
Definition mul : binary64 -> binary64 -> binary64 := SFmul 53 1024.
Definition div : binary64 -> binary64 -> binary64 := SFdiv 53 1024.
Definition ltb : binary64 -> binary64 -> bool := SFltb.

(** An integer literal. *)
Definition of_Z (z : Z) : binary64 := binary_normalize 53 1024 z 0 false.

(** The decimal literal [n / d] for a power of ten [d]: the binary64
    nearest to the quotient, which is what the correctly rounded division
    of the two integers gives. *)
Definition lit (n d : Z) : binary64 := div (of_Z n) (of_Z d).

(** A number that fits binary64, in the canonical form the comparisons
    expect. *)
Definition widen (a : binary64) : binary64 :=
  match a with
  | S754_finite s m e => binary_round 53 1024 s m e
  | _ => a
  end.

(** What a [Float32Array] element holds after [arr[i] = a], read back as a
    number: [a] rounded to binary32. *)
Definition fround (a : binary64) : binary64 :=
  match a with
  | S754_finite s m e => widen (binary_round 24 128 s m e)
  | _ => a
  end.

(** The rational a finite number stands for. *)
Definition F2Q (a : binary64) : Q :=
  match a with
  | S754_finite s m e =>
      let v := (inject_Z (Zpos m) * Qpower (2 # 1) e)%Q in
      if s then Qopp v else v
  | _ => 0%Q
  end.

(** The real number a finite number stands for. *)
Definition F2R (a : binary64) : R := Q2R (F2Q a).

Definition is_nan (a : binary64) : bool :=
  match a with S754_nan => true | _ => false end.

(** [Math.max] and [Math.min] of two numbers: NaN if either is, and [+0]
    above [-0]. *)
Definition Math_max (a b : binary64) : binary64 :=
  if is_nan a || is_nan b then S754_nan
  else if ltb a b then b
  else if ltb b a then a
  else match a with S754_zero true => b | _ => a end.

Definition Math_min (a b : binary64) : binary64 :=
  if is_nan a || is_nan b then S754_nan
  else if ltb a b then a
  else if ltb b a then b
  else match a with S754_zero false => b | _ => a end.

Definition Math_sqrt : binary64 -> binary64 := SFsqrt 53 1024.

(** [Math.pow(b, 2)]. *)
Definition Math_pow2 (b : binary64) : binary64 := mul b b.

Record Vec2 : Type := mkVec2 { x : binary64; y : binary64 }.

Record HandState : Type := mkHandState {
  gesture : GestureType;
  openness : binary64;
  position : Vec2
}.

Local Open Scope result_scope.

Definition isFingerUp (landmarks : list Vec2) (tipIdx pipIdx : nat)
  : Result bool :=
  let* tip := element landmarks tipIdx in
  let* pip := element landmarks pipIdx in
  Ok (ltb (y tip) (y pip)).

(** The distance [analyzeGesture] computes between two landmarks. *)
Definition distance (thumbTip indexTip : Vec2) : binary64 :=
  Math_sqrt (add (Math_pow2 (sub (x thumbTip) (x indexTip)))
                 (Math_pow2 (sub (y thumbTip) (y indexTip)))).

(** [analyzeGesture(landmarks)] in binary64. *)
Definition analyzeGesture (landmarks : list Vec2) : Result HandState :=
  let* indexUp := isFingerUp landmarks 8 6 in
  let* middleUp := isFingerUp landmarks 12 10 in
  let* ringUp := isFingerUp landmarks 16 14 in
  let* pinkyUp := isFingerUp landmarks 20 18 in
  let* thumbUp :=
    (let* l4 := element landmarks 4 in
     let* l3 := element landmarks 3 in
     Ok (ltb (x l4) (x l3))) in
  let fingersCount := 0%nat in
  let fingersCount := if indexUp then S fingersCount else fingersCount in
  let fingersCount := if middleUp then S fingersCount else fingersCount in
  let fingersCount := if ringUp then S fingersCount else fingersCount in
  let fingersCount := if pinkyUp then S fingersCount else fingersCount in
  let gesture :=
    if (fingersCount =? 1)%nat then ONE
    else if (fingersCount =? 2)%nat then TWO
    else if (fingersCount =? 3)%nat then THREE
    else if (fingersCount =? 4)%nat then FOUR
    else NONE in
  let* thumbTip := element landmarks 4 in
  let* indexTip := element landmarks 8 in
  let distance := distance thumbTip indexTip in
  let openness :=
    Math_min (Math_max (mul (sub distance (lit 5 100)) (of_Z 4)) (of_Z 0))
             (lit 15 10) in
  let* wrist := element landmarks 0 in
  let xPos := mul (sub (x wrist) (lit 5 10)) (of_Z (-2)) in
  let yPos := mul (sub (y wrist) (lit 5 10)) (of_Z (-2)) in
  Ok {| gesture := gesture;
        openness := openness;
        position := {| x := xPos; y := yPos |} |}.

Definition LERP_SPEED : binary64 := lit 8 100.

(** The lerp of the loop body on one coordinate: [const d = t - c[idx];
    c[idx] += d * LERP_SPEED], for a target [t] and the coordinate [c[idx]]
    of the position buffer, a [Float32Array].  The answer is what the
    buffer holds afterwards. *)
Definition lerp_store (target current : binary64) : binary64 :=
  let d := sub target current in
  fround (add current (mul d LERP_SPEED)).

(** The coordinate after [n] ticks toward a fixed target. *)
Definition lerp_iter (target start : binary64) (n : nat) : binary64 :=
  Nat.iter n (lerp_store target) start.

(** A power of a rational, by repeated multiplication. *)
Fixpoint qpow (q : Q) (n : nat) : Q :=
  match n with
  | O => 1%Q
  | S n' => (q * qpow q n')%Q
  end.

(** A tick of the run toward a target, together with the power of
    [1 - 0.08 = 23/25] the coordinate is compared to. *)
Definition lerp_tick (target : binary64) (s : binary64 * Q) : binary64 * Q :=
  (lerp_store target s.1, Qred (s.2 * (23 # 25))).

(** The run from 0 toward the target 10: the coordinate after [n] ticks,
    alone and with the power of [23/25]. *)
Definition climb (n : nat) : binary64 := lerp_iter (of_Z 10) (of_Z 0) n.

Definition climb_run (n : nat) : binary64 * Q :=
  Nat.iter n (lerp_tick (of_Z 10)) (of_Z 0, 1%Q).

(** A test that holds of the first [n] states of a run. *)
Fixpoint along {A : Type} (f : A -> A) (P : A -> bool) (n : nat) (a : A)
  : bool :=
  match n with
  | O => true
  | S n' => P a && along f P n' (f a)
  end.

(** Sample frames: 21 landmarks at mid-image, no finger raised, with the
    index tip at the left edge and the thumb tip 0.175 to its right, or with
    the thumb tip moved from 0.5 to 0.675. *)
Definition mid : Vec2 := {| x := lit 5 10; y := lit 5 10 |}.


Definition spread : list Vec2 :=
  <[4%nat := {| x := lit 675 1000; y := lit 5 10 |}]> (replicate 21 mid).

End IEEE.

(** * Properties of the classifier *)

Section ClassifierFacts.

Import Classifier.

Lemma Rltb_true (a b : R) : Rltb a b = true <-> a < b.
Proof. unfold Rltb. destruct (Rlt_dec a b); split; intros; try done. Qed.

Lemma Rltb_false (a b : R) : Rltb a b = false <-> ~ a < b.
Proof. unfold Rltb. destruct (Rlt_dec a b); split; intros; try done. Qed.

Lemma element_Some {A : Type} (arr : list A) (i : nat) (a : A) :
  arr !! i = Some a -> element arr i = Ok a.
Proof. intros H. unfold element. by rewrite H. Qed.

Lemma element_None {A : Type} (arr : list A) (i : nat) :
  (length arr <= i)%nat -> element arr i = Throw TypeError.
Proof. intros H. unfold element. by rewrite lookup_ge_None_2. Qed.

(** A frame of at least 21 landmarks has every landmark the classifier
    reads. *)
Lemma isFingerUp_Ok (lms : list Landmark) (tip pip : nat) :
  (tip < length lms)%nat -> (pip < length lms)%nat ->
  exists t p, lms !! tip = Some t /\ lms !! pip = Some p /\
              isFingerUp lms tip pip = Ok (Rltb (y t) (y p)).
Proof.
  intros Ht Hp.
  destruct (lookup_lt_is_Some_2 lms tip Ht) as [t Et].
  destruct (lookup_lt_is_Some_2 lms pip Hp) as [p Ep].
  exists t, p. repeat split; try done.
  unfold isFingerUp.
  by rewrite (element_Some _ _ _ Et), (element_Some _ _ _ Ep).
Qed.

Lemma isFingerUp_spec (lms : list Landmark) (tip pip : nat) (b : bool) :
  isFingerUp lms tip pip = Ok b -> (b = true <-> Spec.finger_up lms tip pip).
Proof.
  unfold isFingerUp, element, Spec.finger_up.
  destruct (lms !! tip) as [t|] eqn:Et; [|done].
  destruct (lms !! pip) as [p|] eqn:Ep; [|done].
  simpl. intros [= <-]. rewrite Rltb_true. split.
  - intros H. by exists t, p.
  - intros (t' & p' & [= <-] & [= <-] & H). done.
Qed.

(** The shape of a successful classification: the four flags, the three
    landmarks read for openness and position, and the signal built. *)
Lemma analyzeGesture_Ok (lms : list Landmark) :
  (21 <= length lms)%nat ->
  exists indexUp middleUp ringUp pinkyUp thumbTip indexTip wrist,
    isFingerUp lms 8 6 = Ok indexUp /\
    isFingerUp lms 12 10 = Ok middleUp /\
    isFingerUp lms 16 14 = Ok ringUp /\
    isFingerUp lms 20 18 = Ok pinkyUp /\
    lms !! 4%nat = Some thumbTip /\
    lms !! 8%nat = Some indexTip /\
    lms !! 0%nat = Some wrist /\
    analyzeGesture lms =
      Ok {| gesture :=
              Spec.gesture_of_count
                (Nat.b2n indexUp + Nat.b2n middleUp +
                 Nat.b2n ringUp + Nat.b2n pinkyUp);
            openness :=
              Math_min (Math_max
                ((Math_sqrt (Math_pow (x thumbTip - x indexTip) 2 +
                             Math_pow (y thumbTip - y indexTip) 2) - 0.05) * 4)
                0) 1.5;
            position := {| x := (x wrist - 0.5) * -2;
                           y := (y wrist - 0.5) * -2 |} |}.
Proof.
  intros Hlen.
  destruct (isFingerUp_Ok lms 8 6) as (t8 & p6 & E8 & E6 & F1); [lia..|].
  destruct (isFingerUp_Ok lms 12 10) as (t12 & p10 & E12 & E10 & F2); [lia..|].
  destruct (isFingerUp_Ok lms 16 14) as (t16 & p14 & E16 & E14 & F3); [lia..|].
  destruct (isFingerUp_Ok lms 20 18) as (t20 & p18 & E20 & E18 & F4); [lia..|].
  destruct (lookup_lt_is_Some_2 lms 4) as [l4 E4]; [lia|].
  destruct (lookup_lt_is_Some_2 lms 3) as [l3 E3]; [lia|].
  destruct (lookup_lt_is_Some_2 lms 0) as [l0 E0]; [lia|].
  exists (Rltb (y t8) (y p6)), (Rltb (y t12) (y p10)),
         (Rltb (y t16) (y p14)), (Rltb (y t20) (y p18)), l4, t8, l0.
  repeat split; try done.
  unfold analyzeGesture. rewrite F1, F2, F3, F4. cbn [bindR].
  rewrite (element_Some _ _ _ E4), (element_Some _ _ _ E3). cbn [bindR].
  rewrite (element_Some _ _ _ E8). cbn [bindR].
  rewrite (element_Some _ _ _ E0). cbn [bindR].
  by destruct (Rltb (y t8) (y p6)), (Rltb (y t12) (y p10)),
              (Rltb (y t16) (y p14)), (Rltb (y t20) (y p18)).
Qed.

(** A frame of fewer than 21 landmarks: reading landmark 20 (or an earlier
    one) dereferences [undefined]. *)
Lemma analyzeGesture_Throw (lms : list Landmark) :
  (length lms < 21)%nat -> analyzeGesture lms = Throw TypeError.
Proof.
  intros Hlen. unfold analyzeGesture.
  assert (H20 : isFingerUp lms 20 18 = Throw TypeError).
  { unfold isFingerUp. rewrite (element_None lms 20); [done | lia]. }
  rewrite H20.
  assert (Hany : forall tip pip, isFingerUp lms tip pip = Throw TypeError \/
                                 exists b, isFingerUp lms tip pip = Ok b).
  { intros tip pip. unfold isFingerUp, element.
    destruct (lms !! tip); [|by left]. destruct (lms !! pip); [|by left].
    right. by eexists. }
  destruct (Hany 8%nat 6%nat) as [-> | [? ->]]; [done|].
  destruct (Hany 12%nat 10%nat) as [-> | [? ->]]; [done|].
  destruct (Hany 16%nat 14%nat) as [-> | [? ->]]; done.
Qed.

(** A hand whose thumb tip is 0.175 away from the index tip, no finger
    raised, wrist mid-image: gesture NONE, openness 0.5, position (0, 0). *)
Example analyzeGesture_spread :
  exists s, analyzeGesture Samples.spread = Ok s /\
            gesture s = NONE /\ openness s = 0.5 /\
            x (position s) = 0 /\ y (position s) = 0.
Proof.
  eexists. split; [reflexivity|]. cbn [gesture openness position x y].
  split; [|split; [|split; lra]].
  - unfold Rltb. by repeat (destruct (Rlt_dec _ _); [lra|]).
  - unfold Math_sqrt, Math_pow, Math_min, Math_max.
    replace ((0.675 - 0.5) ^ 2 + (0.5 - 0.5) ^ 2) with (0.175 * 0.175) by lra.
    rewrite sqrt_square by lra. unfold Rmin, Rmax.
    repeat (destruct (Rle_dec _ _)); lra.
Qed.

End ClassifierFacts.

Section IEEEFacts.

(** A number whose rational value a computation finds. *)
Lemma F2R_of_Qeq (a : spec_float) (q : Q) :
  Qeq_bool (IEEE.F2Q a) q = true -> IEEE.F2R a = Q2R q.
Proof. intros H. apply Qeq_eqR. by apply Qeq_bool_eq. Qed.

Lemma Q2R_qpow (q : Q) (n : nat) : Q2R (IEEE.qpow q n) = Q2R q ^ n.
Proof.
  induction n as [|n IH]; cbn [IEEE.qpow pow].
  - unfold Q2R. cbn. lra.
  - by rewrite Q2R_mult, IH.
Qed.

Lemma Q2R_92 : Q2R (23 # 25) = 0.92.
Proof. unfold Q2R. cbn. lra. Qed.



End IEEEFacts.

Section ClassifierClaims.

Import Classifier.

(** C3. On a frame of 21 landmarks in which exactly [k] of the pairs
    index (8,6), middle (12,10), ring (16,14), pinky (20,18) have the tip's Y
    strictly below the PIP's Y, the classifier answers the gesture of the
    table 0 NONE, 1 ONE, 2 TWO, 3 THREE, 4 FOUR at [k]: the enum member whose
    value is [k].  The thumb has no part in it. *)
Theorem analyzeGesture_finger_count
    (lms : list Landmark) (indexUp middleUp ringUp pinkyUp : bool) (k : nat) :
  length lms = 21%nat ->
  (indexUp = true <-> Spec.finger_up lms 8 6) ->
  (middleUp = true <-> Spec.finger_up lms 12 10) ->
  (ringUp = true <-> Spec.finger_up lms 16 14) ->
  (pinkyUp = true <-> Spec.finger_up lms 20 18) ->
  (Nat.b2n indexUp + Nat.b2n middleUp + Nat.b2n ringUp + Nat.b2n pinkyUp)%nat
    = k ->
  (k <= 4)%nat /\
  exists s, analyzeGesture lms = Ok s /\
            gesture s = Spec.gesture_of_count k /\
            GestureType_value (gesture s) = k.
Proof.
  intros Hlen H1 H2 H3 H4 Hk.
  destruct (analyzeGesture_Ok lms) as
    (b1 & b2 & b3 & b4 & tt & it & w & F1 & F2 & F3 & F4 & _ & _ & _ & E);
    [lia|].
  apply isFingerUp_spec in F1, F2, F3, F4.
  assert (indexUp = b1) as -> by (destruct indexUp, b1; intuition congruence).
  assert (middleUp = b2) as -> by (destruct middleUp, b2; intuition congruence).
  assert (ringUp = b3) as -> by (destruct ringUp, b3; intuition congruence).
  assert (pinkyUp = b4) as -> by (destruct pinkyUp, b4; intuition congruence).
  rewrite E, <- Hk. split.
  - destruct b1, b2, b3, b4; simpl; lia.
  - eexists. split; [done|]. simpl. by destruct b1, b2, b3, b4.
Qed.



(** C8. A frame without a hand ([results.landmarks] absent or empty) sets
    the gesture to NONE and leaves openness and position as they were, for
    every prior signal. *)
Theorem detect_no_hand (results : HandLandmarkerResult) (prev : HandState) :
  landmarks results = None \/ landmarks results = Some [] ->
  exists s, detect true results prev = Ok s /\
            gesture s = NONE /\
            openness s = openness prev /\
            position s = position prev /\
            stateAfter prev (detect true results prev) = s.
Proof.
  intros H. unfold detect.
  destruct H as [-> | ->]; eexists; repeat split.
Qed.

End ClassifierClaims.

Section ClassifierLength.

Import Classifier.

Lemma isFingerUp_take (lms : list Landmark) (n tip pip : nat) :
  (tip < n)%nat -> (pip < n)%nat ->
  isFingerUp (take n lms) tip pip = isFingerUp lms tip pip.
Proof.
  intros Ht Hp. unfold isFingerUp, element.
  by rewrite !lookup_take_lt by done.
Qed.

(** Landmarks past index 20 are never read. *)
Lemma analyzeGesture_take (lms : list Landmark) :
  (21 <= length lms)%nat ->
  analyzeGesture (take 21 lms) = analyzeGesture lms.
Proof.
  intros Hlen.
  destruct (analyzeGesture_Ok lms Hlen) as
    (b1 & b2 & b3 & b4 & tt & it & w &
     F1 & F2 & F3 & F4 & E4 & E8 & E0 & E).
  destruct (analyzeGesture_Ok (take 21 lms)) as
    (c1 & c2 & c3 & c4 & tt' & it' & w' &
     G1 & G2 & G3 & G4 & D4 & D8 & D0 & D).
  { rewrite length_take. lia. }
  rewrite isFingerUp_take in G1, G2, G3, G4 by lia.
  rewrite lookup_take_lt in D4, D8, D0 by lia.
  rewrite D, E. congruence.
Qed.

(** The claim of C9 as the specification words it, refuted: a frame of 22
    landmarks is not of length 21, yet it is classified, and the signal it
    yields replaces the previous one. *)
Lemma analyzeGesture_accepts_22_landmarks :
  length (Spec.still_hand 22) <> 21%nat /\
  (exists s,
     detect true (mkResult (Some [Spec.still_hand 22])) initialHandState
       = Ok s /\
     openness s = 0 /\
     stateAfter initialHandState
       (detect true (mkResult (Some [Spec.still_hand 22])) initialHandState)
       <> initialHandState) /\
  ~ (forall lms : list Landmark,
       length lms <> 21%nat -> exists e, analyzeGesture lms = Throw e).
Proof.
  assert (Hs : exists s, analyzeGesture (Spec.still_hand 22) = Ok s /\
                         openness s = 0).
  { eexists. split; [reflexivity|]. cbn [openness].
    unfold Math_sqrt, Math_pow, Math_min, Math_max. cbn [x y].
    replace ((0.5 - 0.5) ^ 2 + (0.5 - 0.5) ^ 2) with 0 by ring.
    rewrite sqrt_0. unfold Rmax, Rmin.
    repeat (destruct (Rle_dec _ _)); lra. }
  destruct Hs as (s & Es & Eo).
  split; [done|]. split.
  - exists s. cbn [detect landmarks]. rewrite Es. repeat split; try done.
    cbn [stateAfter]. intros ->. by vm_compute in Eo; lra.
  - intros H. destruct (H (Spec.still_hand 22)) as [e He]; [done|].
    congruence.
Qed.

(** C9, amended.  The classifier validates nothing and knows no
    [InvalidInput]: a frame of fewer than 21 landmarks makes it raise
    [TypeError] on the first missing landmark, before any signal is
    published, so the previous signal is retained; a frame of more than 21
    landmarks is classified like its first 21 landmarks. *)
Theorem analyzeGesture_wrong_length
    (lms : list Landmark) (others : list (list Landmark)) (prev : HandState) :
  length lms <> 21%nat ->
  ((length lms < 21)%nat /\
   detect true (mkResult (Some (lms :: others))) prev = Throw TypeError /\
   stateAfter prev (detect true (mkResult (Some (lms :: others))) prev) = prev)
  \/
  ((21 < length lms)%nat /\
   exists s,
     detect true (mkResult (Some (lms :: others))) prev = Ok s /\
     analyzeGesture (take 21 lms) = Ok s /\
     stateAfter prev (detect true (mkResult (Some (lms :: others))) prev) = s).
Proof.
  intros Hne. cbn [detect landmarks].
  destruct (decide (length lms < 21)%nat) as [Hlt | Hge].
  - left. by rewrite analyzeGesture_Throw.
  - right. split; [lia|].
    rewrite analyzeGesture_take by lia.
    destruct (analyzeGesture_Ok lms) as (? & ? & ? & ? & ? & ? & ? & H); [lia|].
    destruct H as (_ & _ & _ & _ & _ & _ & _ & ->). by eexists.
Qed.

End ClassifierLength.

(** * Properties of the formation sampler *)

Section LoopFacts.

(** An invariant of a loop without effects, with the loop's index range at
    hand in the step. *)
Lemma for_loop_Id_inv {St : Type} (P : St -> Prop) (body : nat -> St -> Id St) :
  forall (n start : nat) (s : St),
    (forall i s', (start <= i < start + n)%nat -> P s' -> P (body i s')) ->
    P s -> P (for_loop (M := Id) n start body s).
Proof.
  induction n as [|n IH]; intros start s Hbody Hs; [done|].
  cbn [for_loop]. unfold mbind, Id_bind.
  apply IH.
  - intros i s' Hi. apply Hbody. lia.
  - apply Hbody; [lia | done].
Qed.

(** An invariant of a loop that draws random numbers. *)
Lemma for_loop_Rand_inv {St : Type} (P : St -> Prop)
    (body : nat -> St -> Rand St) :
  (forall i s random k, P s -> P (body i s random k).1) ->
  forall (n start : nat) (s : St) random k,
    P s -> P (for_loop n start body s random k).1.
Proof.
  intros Hbody. induction n as [|n IH]; intros start s random k Hs; [done|].
  cbn [for_loop]. unfold mbind, Rand_bind.
  destruct (body start s random k) as [s' k'] eqn:E.
  apply IH. specialize (Hbody start s random k Hs). by rewrite E in Hbody.
Qed.

End LoopFacts.

Section SamplerFacts.

Import Sampler.

Lemma length_new_Float32Array (n : nat) : length (new_Float32Array n) = n.
Proof. apply length_replicate. Qed.

Lemma placeParticle_length validPixels width height i positions random k :
  length (placeParticle validPixels width height i positions random k).1
  = length positions.
Proof.
  unfold placeParticle, mbind, Rand_bind, mret, Rand_ret, Math_random.
  cbn [fst]. by rewrite !length_insert.
Qed.

Lemma placeSpherePoint_length radius i positions random k :
  length (placeSpherePoint radius i positions random k).1 = length positions.
Proof.
  unfold placeSpherePoint, mbind, Rand_bind, mret, Rand_ret, Math_random.
  cbn [fst]. by rewrite !length_insert.
Qed.

Lemma generateSphereCloud_length count radius random k :
  length (generateSphereCloud count radius random k).1 = (3 * count)%nat.
Proof.
  unfold generateSphereCloud.
  apply (for_loop_Rand_inv (fun a => length a = (3 * count)%nat)).
  - intros. by rewrite placeSpherePoint_length.
  - rewrite length_new_Float32Array. lia.
Qed.

Lemma samplePointsFromText_length getContext text count size random k :
  length (samplePointsFromText getContext text count size random k).1
  = (3 * count)%nat.
Proof.
  unfold samplePointsFromText.
  destruct getContext as [ctx|].
  - destruct (length _ =? 0)%nat.
    + cbn. rewrite length_new_Float32Array. lia.
    + apply (for_loop_Rand_inv (fun a => length a = (3 * count)%nat)).
      * intros. by rewrite placeParticle_length.
      * rewrite length_new_Float32Array. lia.
  - cbn. rewrite length_new_Float32Array. lia.
Qed.

(** The scan finds nothing when no pixel of the canvas is brighter than
    the threshold. *)
Lemma findWhitePixels_nil (data : list Z) (width height : nat) :
  (forall px py v, (px < width)%nat -> (py < height)%nat ->
     data !! ((py * width + px) * 4)%nat = Some v -> (v <= 128)%Z) ->
  findWhitePixels data width height = [].
Proof.
  intros Hdark. unfold findWhitePixels.
  apply (for_loop_Id_inv (fun vp => vp = [])); [|done].
  intros py vp Hy ->.
  apply (for_loop_Id_inv (fun vp => vp = [])); [|done].
  intros px vp Hx ->.
  destruct (data !! _) as [v|] eqn:E; [|done].
  specialize (Hdark px py v ltac:(lia) ltac:(lia) E).
  destruct (Z.ltb_spec 128 v); [lia | done].
Qed.

(** The scan pushes coordinates in pairs. *)
Lemma findWhitePixels_pairs (data : list Z) (width height : nat) :
  exists m, length (findWhitePixels data width height) = (2 * m)%nat.
Proof.
  unfold findWhitePixels.
  apply (for_loop_Id_inv (fun vp => exists m, length vp = (2 * m)%nat));
    [|by exists 0%nat].
  intros py vp _ Hvp.
  apply (for_loop_Id_inv (fun vp => exists m, length vp = (2 * m)%nat));
    [|done].
  intros px vp' _ [m Hm].
  destruct (data !! _) as [v|]; [|by exists m].
  destruct (128 <? v)%Z; [|by exists m].
  exists (S m). rewrite length_app. simpl. lia.
Qed.

(** With [Math.random()] in the unit interval, the pixel a particle draws
    exists: neither lookup of [placeParticle] is [undefined]. *)
Lemma pixelIndex_in_range (validPixels : list nat) (m : nat)
    (u : unit_interval) :
  length validPixels = (2 * m)%nat -> length validPixels <> 0%nat ->
  let pixelIndex :=
    (Math_floor (u * (INR (length validPixels) / 2)) * 2)%Z in
  is_Some (index validPixels pixelIndex) /\
  is_Some (index validPixels (pixelIndex + 1)).
Proof.
  intros Hlen Hne. cbv zeta. rewrite Hlen.
  replace (INR (2 * m) / 2) with (INR m)
    by (rewrite mult_INR; simpl; lra).
  destruct u as [u [Hu0 Hu1]]. cbn [unit_value].
  unfold Math_floor.
  destruct (base_Int_part (u * INR m)) as [Hlo Hhi].
  set (f := Int_part (u * INR m)) in *.
  assert (Hm : 0 < INR m) by (apply lt_0_INR; lia).
  assert (Hf0 : (0 <= f)%Z).
  { destruct (Z_lt_le_dec f 0) as [Hneg|]; [|done].
    assert (H1 : (f <= -1)%Z) by lia. apply IZR_le in H1.
    assert (0 <= u * INR m) by (apply Rmult_le_pos; lra). lra. }
  assert (Hf1 : (f < Z.of_nat m)%Z).
  { apply lt_IZR. rewrite <- INR_IZR_INZ.
    assert (u * INR m < INR m) by nra. lra. }
  unfold index.
  destruct (Z.ltb_spec (f * 2) 0); [lia|].
  destruct (Z.ltb_spec (f * 2 + 1) 0); [lia|].
  split; apply lookup_lt_is_Some_2; rewrite Hlen; lia.
Qed.

End SamplerFacts.

Section SamplerClaims.

Import Sampler.

Lemma makeTargets_length getContext random k (g : GestureType) :
  length (Spec.formation (Engine.makeTargets getContext random k).1 g)
  = (3 * Engine.PARTICLE_COUNT)%nat.
Proof.
  unfold Engine.makeTargets, mbind, Rand_bind, mret, Rand_ret.
  pose proof (generateSphereCloud_length Engine.PARTICLE_COUNT 8 random k)
    as H0.
  destruct (generateSphereCloud _ _ random k) as [a0 k0].
  pose proof (samplePointsFromText_length getContext "生"
                Engine.PARTICLE_COUNT 140 random k0) as H1.
  destruct (samplePointsFromText _ "生" _ _ random k0) as [a1 k1].
  pose proof (samplePointsFromText_length getContext "日"
                Engine.PARTICLE_COUNT 140 random k1) as H2.
  destruct (samplePointsFromText _ "日" _ _ random k1) as [a2 k2].
  pose proof (samplePointsFromText_length getContext "快"
                Engine.PARTICLE_COUNT 140 random k2) as H3.
  destruct (samplePointsFromText _ "快" _ _ random k2) as [a3 k3].
  pose proof (samplePointsFromText_length getContext "乐"
                Engine.PARTICLE_COUNT 140 random k3) as H4.
  destruct (samplePointsFromText _ "乐" _ _ random k3) as [a4 k4].
  by destruct g.
Qed.

(** C6. Whatever the count, the random draws and the canvas (no context,
    no filled pixel, or a drawn glyph), [generateSphereCloud] and
    [samplePointsFromText] answer a buffer of exactly [count] points, that
    is [3 * count] numbers; the five formations built at initialisation
    have [PARTICLE_COUNT = 3000] points each. *)
Theorem formation_length
    (getContext : option (string -> R -> list Z)) (text : string)
    (count : nat) (size radius : R) (random : nat -> unit_interval) (k : nat) :
  length (generateSphereCloud count radius random k).1 = (3 * count)%nat /\
  length (samplePointsFromText getContext text count size random k).1
    = (3 * count)%nat /\
  length (samplePointsFromText None text count size random k).1
    = (3 * count)%nat /\
  Engine.PARTICLE_COUNT = 3000%nat /\
  forall g : GestureType,
    length (Spec.formation (Engine.makeTargets getContext random k).1 g)
    = (3 * Engine.PARTICLE_COUNT)%nat.
Proof.
  split; [apply generateSphereCloud_length|].
  split; [apply samplePointsFromText_length|].
  split; [apply samplePointsFromText_length|].
  split; [reflexivity|].
  apply makeTargets_length.
Qed.

(** C7. When the canvas gives no context, or the drawn glyph leaves no
    pixel brighter than 128, [samplePointsFromText] answers, without raising
    and without drawing a random number, a buffer of [3 * count] numbers
    that are all zero. *)
Theorem samplePointsFromText_degraded
    (getContext : option (string -> R -> list Z)) (text : string)
    (count : nat) (size : R) (random : nat -> unit_interval) (k : nat) :
  getContext = None \/
  (exists ctx, getContext = Some ctx /\ Spec.no_filled_pixel (ctx text size)) ->
  samplePointsFromText getContext text count size random k
    = (replicate (count * 3) 0, k) /\
  length (samplePointsFromText getContext text count size random k).1
    = (3 * count)%nat /\
  forall j, (j < 3 * count)%nat ->
    (samplePointsFromText getContext text count size random k).1 !! j = Some 0.
Proof.
  intros H.
  assert (E : samplePointsFromText getContext text count size random k
              = (replicate (count * 3) 0, k)).
  { unfold samplePointsFromText.
    destruct H as [-> | (ctx & -> & Hdark)]; [done|].
    by rewrite (findWhitePixels_nil _ 200 200 Hdark). }
  rewrite E. cbn [fst]. split; [done|]. split.
  - rewrite length_replicate. lia.
  - intros j Hj. apply lookup_replicate_2. lia.
Qed.

End SamplerClaims.

(** * Properties of the blending engine *)

Section StoreFacts.

Import Engine.

Lemma read_insert (h : gmap nat (list R)) (a : ref) (buf : list R) (i : nat) :
  read (<[a := buf]> h) a i = buf !! i.
Proof. unfold read. by rewrite lookup_insert_eq. Qed.

Lemma write_insert (h : gmap nat (list R)) (a : ref) (buf : list R)
    (i : nat) (v : R) :
  write (<[a := buf]> h) a i v = <[a := <[i := v]> buf]> h.
Proof. unfold write. by rewrite alter_insert_eq. Qed.

(** On a present element, [+=] writes what the blend step computes. *)
Lemma lerp_is_blend (t c : R) : c + (t - c) * LERP_SPEED = Spec.blend t c.
Proof. reflexivity. Qed.

(** The target the loop body computes is the one the specification
    describes, for the raw formation point and the X it reads from
    [positions]. *)
Lemma adjustTarget_spec (handState : HandState) (time : R)
    (targetPositions : list R) (positions : ref) (i : nat)
    (h : gmap nat (list R)) (rx ry rz px : R) :
  targetPositions !! (i * 3)%nat = Some rx ->
  targetPositions !! (i * 3 + 1)%nat = Some ry ->
  targetPositions !! (i * 3 + 2)%nat = Some rz ->
  read h positions (i * 3) = Some px ->
  adjustTarget handState time targetPositions positions i h
  = Some (Spec.target (gesture handState) (openness handState) time i
            (rx, ry, rz) px).
Proof.
  intros Ex Ey Ez Ep. unfold adjustTarget. rewrite Ex, Ey, Ez.
  cbn [mbind option_bind].
  destruct (gesture handState); cbn; rewrite ?Ep; reflexivity.
Qed.

End StoreFacts.

Section OneBufferFacts.

Import Engine.

Lemma particle_one_buffer (handState : HandState) (time : R)
    (targetPositions : list R) (a : ref) (i : nat)
    (h : gmap nat (list R)) (buf : list R) :
  particle handState time targetPositions a a i (<[a := buf]> h)
  = (fun b => <[a := b]> h) <$>
      OneBuffer.particle handState time targetPositions i buf.
Proof.
  unfold particle, OneBuffer.particle, OneBuffer.slot, adjustTarget.
  destruct (targetPositions !! (i * 3)%nat) as [rx|]; [|done].
  destruct (targetPositions !! (i * 3 + 1)%nat) as [ry|]; [|done].
  destruct (targetPositions !! (i * 3 + 2)%nat) as [rz|]; [|done].
  cbn [mbind option_bind].
  rewrite !read_insert.
  destruct (buf !! (i * 3)%nat) as [cx|] eqn:Ex;
    [|by destruct (decide (gesture handState = NONE))].
  destruct (buf !! (i * 3 + 1)%nat) as [cy|] eqn:Ey;
    [|by destruct (decide (gesture handState = NONE))].
  destruct (buf !! (i * 3 + 2)%nat) as [cz|] eqn:Ez;
    [|by destruct (decide (gesture handState = NONE))].
  assert (Hstore : forall tx ty tz : R,
    (read (write (<[a:=buf]> h) a (i * 3) (cx + (tx - cx) * LERP_SPEED))
       a (i * 3 + 1)
     ≫= λ c0 : R,
       read (write (write (<[a:=buf]> h) a (i * 3)
                      (cx + (tx - cx) * LERP_SPEED))
               a (i * 3 + 1) (c0 + (ty - cy) * LERP_SPEED))
         a (i * 3 + 2)
       ≫= λ c1 : R,
         Some (write (write (write (<[a:=buf]> h) a (i * 3)
                               (cx + (tx - cx) * LERP_SPEED))
                        a (i * 3 + 1) (c0 + (ty - cy) * LERP_SPEED))
                 a (i * 3 + 2) (c1 + (tz - cz) * LERP_SPEED)))
    = Some (<[a := <[(i * 3 + 2)%nat := Spec.blend tz cz]>
                     (<[(i * 3 + 1)%nat := Spec.blend ty cy]>
                        (<[(i * 3)%nat := Spec.blend tx cx]> buf))]> h)).
  { intros tx ty tz.
    rewrite write_insert, read_insert, list_lookup_insert_ne, Ey by lia.
    cbn [mbind option_bind].
    rewrite write_insert, read_insert, !list_lookup_insert_ne, Ez by lia.
    cbn [mbind option_bind].
    by rewrite write_insert. }
  destruct (gesture handState);
    destruct (decide _) as [?|?]; try done;
    cbn [mbind option_bind Spec.target]; by rewrite Hstore.
Qed.


Lemma loop_one_buffer (handState : HandState) (time : R)
    (targetPositions : list R) (a : ref) (h : gmap nat (list R)) :
  forall (n start : nat) (buf : list R),
    for_loop n start (particle handState time targetPositions a a)
      (<[a := buf]> h)
    = (fun b => <[a := b]> h) <$>
        for_loop n start (OneBuffer.particle handState time targetPositions)
          buf.
Proof.
  induction n as [|n IH]; intros start buf; [done|].
  cbn [for_loop]. rewrite particle_one_buffer.
  destruct (OneBuffer.particle _ _ _ _ _) as [b|]; [|done].
  cbn [fmap option_fmap option_map mbind option_bind]. apply IH.
Qed.

(** A loop in the option monad, cut at an index. *)
Lemma for_loop_option_split {St : Type} (body : nat -> St -> option St) :
  forall (n m start : nat) (s : St),
    for_loop (n + m) start body s
    = for_loop n start body s ≫= for_loop m (start + n) body.
Proof.
  induction n as [|n IH]; intros m start s.
  - cbn. by rewrite Nat.add_0_r.
  - cbn [for_loop Nat.add]. destruct (body start s) as [s'|]; [|done].
    cbn [mbind option_bind]. rewrite IH. by rewrite Nat.add_succ_r.
Qed.

Section Slots.

Variables (handState : HandState) (time : R) (targetPositions : list R).

(** The step of a particle depends on its own three coordinates only. *)
Lemma slot_ext (buf1 buf2 : list R) (i : nat) :
  (forall j, (i * 3 <= j < i * 3 + 3)%nat -> buf1 !! j = buf2 !! j) ->
  OneBuffer.slot handState time targetPositions buf1 i
  = OneBuffer.slot handState time targetPositions buf2 i.
Proof.
  intros H. unfold OneBuffer.slot.
  by rewrite (H (i * 3)%nat), (H (i * 3 + 1)%nat), (H (i * 3 + 2)%nat) by lia.
Qed.

Lemma slot_Some (buf : list R) (i : nat) :
  (i * 3 + 3 <= length targetPositions)%nat ->
  (i * 3 + 3 <= length buf)%nat ->
  exists rx ry rz cx cy cz,
    targetPositions !! (i * 3)%nat = Some rx /\
    targetPositions !! (i * 3 + 1)%nat = Some ry /\
    targetPositions !! (i * 3 + 2)%nat = Some rz /\
    buf !! (i * 3)%nat = Some cx /\
    buf !! (i * 3 + 1)%nat = Some cy /\
    buf !! (i * 3 + 2)%nat = Some cz /\
    OneBuffer.slot handState time targetPositions buf i
    = Some (let '(tx, ty, tz) :=
              Spec.target (gesture handState) (openness handState) time i
                (rx, ry, rz) cx in
            (Spec.blend tx cx, Spec.blend ty cy, Spec.blend tz cz)).
Proof.
  intros Ht Hb.
  destruct (lookup_lt_is_Some_2 targetPositions (i * 3)) as [rx Erx]; [lia|].
  destruct (lookup_lt_is_Some_2 targetPositions (i * 3 + 1)) as [ry Ery];
    [lia|].
  destruct (lookup_lt_is_Some_2 targetPositions (i * 3 + 2)) as [rz Erz];
    [lia|].
  destruct (lookup_lt_is_Some_2 buf (i * 3)) as [cx Ecx]; [lia|].
  destruct (lookup_lt_is_Some_2 buf (i * 3 + 1)) as [cy Ecy]; [lia|].
  destruct (lookup_lt_is_Some_2 buf (i * 3 + 2)) as [cz Ecz]; [lia|].
  exists rx, ry, rz, cx, cy, cz. repeat split; try done.
  unfold OneBuffer.slot. rewrite Erx, Ery, Erz, Ecx, Ecy, Ecz.
  cbn [mbind option_bind].
  by destruct (Spec.target _ _ _ _ _ _) as [[tx ty] tz].
Qed.

(** What one step does to the buffer: the three coordinates of particle
    [i] are replaced, everything else stays. *)
Lemma particle_effect (buf : list R) (i : nat) (nx ny nz : R) :
  (i * 3 + 3 <= length buf)%nat ->
  OneBuffer.slot handState time targetPositions buf i = Some (nx, ny, nz) ->
  exists buf',
    OneBuffer.particle handState time targetPositions i buf = Some buf' /\
    length buf' = length buf /\
    buf' !! (i * 3)%nat = Some nx /\
    buf' !! (i * 3 + 1)%nat = Some ny /\
    buf' !! (i * 3 + 2)%nat = Some nz /\
    forall j, (j < i * 3 \/ i * 3 + 3 <= j)%nat -> buf' !! j = buf !! j.
Proof.
  intros Hb Hs. unfold OneBuffer.particle. rewrite Hs.
  cbn [mbind option_bind]. eexists. split; [done|].
  rewrite !length_insert. split; [done|].
  split; [|split; [|split]].
  - rewrite !list_lookup_insert_ne by lia.
    apply list_lookup_insert_eq. lia.
  - rewrite list_lookup_insert_ne by lia.
    apply list_lookup_insert_eq. rewrite length_insert. lia.
  - apply list_lookup_insert_eq. rewrite !length_insert. lia.
  - intros j Hj. by rewrite !list_lookup_insert_ne by lia.
Qed.

(** The loop over particles [start .. start + n - 1] on a buffer that holds
    them: it completes, keeps the length, leaves the other particles alone,
    and gives each particle of the range the coordinates its step computes
    from the buffer as it was before the loop. *)
Lemma loop_slots :
  forall (n start : nat) (buf : list R),
    ((start + n) * 3 <= length targetPositions)%nat ->
    ((start + n) * 3 <= length buf)%nat ->
    exists buf',
      for_loop n start (OneBuffer.particle handState time targetPositions) buf
      = Some buf' /\
      length buf' = length buf /\
      (forall j, (j < start * 3 \/ (start + n) * 3 <= j)%nat ->
         buf' !! j = buf !! j) /\
      (forall i, (start <= i < start + n)%nat ->
         exists nx ny nz,
           OneBuffer.slot handState time targetPositions buf i
           = Some (nx, ny, nz) /\
           buf' !! (i * 3)%nat = Some nx /\
           buf' !! (i * 3 + 1)%nat = Some ny /\
           buf' !! (i * 3 + 2)%nat = Some nz).
Proof.
  induction n as [|n IH]; intros start buf Ht Hb.
  - exists buf. repeat split; try done. intros i Hi. lia.
  - destruct (slot_Some buf start) as
      (rx & ry & rz & cx & cy & cz & _ & _ & _ & _ & _ & _ & Es); [lia..|].
    destruct (Spec.target _ _ _ _ _ _) as [[tx ty] tz].
    destruct (particle_effect buf start _ _ _ ltac:(lia) Es)
      as (buf1 & Ep & Hlen1 & E0 & E1 & E2 & Hout1).
    destruct (IH (S start) buf1) as (buf' & El & Hlen' & Hout' & Hin');
      [lia | lia |].
    exists buf'. split; [|split; [|split]].
    + cbn [for_loop]. rewrite Ep. exact El.
    + lia.
    + intros j Hj. rewrite Hout' by lia. apply Hout1. lia.
    + intros i Hi. destruct (decide (i = start)) as [-> | Hne].
      * exists (Spec.blend tx cx), (Spec.blend ty cy), (Spec.blend tz cz).
        split; [done|]. rewrite !Hout' by lia. done.
      * destruct (Hin' i) as (nx & ny & nz & Es' & F0 & F1 & F2); [lia|].
        exists nx, ny, nz. split; [|done].
        rewrite <- Es'. apply slot_ext. intros j Hj. symmetry.
        apply Hout1. lia.
Qed.

End Slots.

End OneBufferFacts.

Section MountedFacts.

Import Engine Mounted.

Lemma selectTarget_formation (tg : Targets) (g : GestureType) :
  selectTarget tg g = Spec.formation tg g.
Proof. by destruct g. Qed.

(** The first render, mounted, is a mounted component. *)
Lemma render_mounted getContext random k :
  mounted (mount (render getContext random k).1.2)
          (render getContext random k).1.1.
Proof.
  unfold render, mbind, Rand_bind, mret, Rand_ret.
  pose proof (makeTargets_length getContext random k) as Hlen.
  destruct (makeTargets getContext random k) as [tg k']. cbn [fst snd] in *.
  split; [|split].
  - eexists. by split.
  - exists (sphere tg). split.
    + cbn [mount positions]. by rewrite lookup_insert_ne, lookup_insert_eq.
    + apply (Hlen NONE).
  - intros g. cbn [mount targets]. rewrite selectTarget_formation. apply Hlen.
Qed.

(** Before the component is mounted the frame callback does nothing. *)
Lemma useFrame_not_ready (ps : ParticleSystem) (handState : HandState)
    (time : R) (h : gmap nat (list R)) :
  pointsRef ps = None -> useFrame ps handState time h = Some (h, ps).
Proof. intros E. unfold useFrame. by rewrite E. Qed.

(** One tick of a mounted component.  The tick completes; the component
    stays mounted; only the [positions] array changes; every particle gets
    the coordinates its step computes from the buffer of before the tick. *)
Lemma useFrame_slots (ps : ParticleSystem) (handState : HandState) (time : R)
    (h : gmap nat (list R)) (buf : list R) :
  mounted ps h ->
  h !! positions ps = Some buf ->
  exists buf' ps',
    useFrame ps handState time h = Some (<[positions ps := buf']> h, ps') /\
    particles ps handState time PARTICLE_COUNT 0 h
      = Some (<[positions ps := buf']> h) /\
    mounted ps' (<[positions ps := buf']> h) /\
    positions ps' = positions ps /\
    targets ps' = targets ps /\
    length buf' = length buf /\
    forall i, (i < PARTICLE_COUNT)%nat ->
      exists nx ny nz,
        OneBuffer.slot handState time
          (selectTarget (targets ps) (gesture handState)) buf i
        = Some (nx, ny, nz) /\
        buf' !! (i * 3)%nat = Some nx /\
        buf' !! (i * 3 + 1)%nat = Some ny /\
        buf' !! (i * 3 + 2)%nat = Some nz.
Proof.
  intros ((current & Ecur & Earr) & (buf0 & Ebuf0 & Hlen) & Htg) Ebuf.
  assert (buf0 = buf) as -> by congruence.
  set (tp := selectTarget (targets ps) (gesture handState)).
  destruct (loop_slots handState time tp PARTICLE_COUNT 0 buf)
    as (buf' & Eloop & Hlen' & _ & Hslots).
  { unfold tp. rewrite Htg. lia. }
  { lia. }
  pose proof (loop_one_buffer handState time tp (positions ps) h
                PARTICLE_COUNT 0 buf) as L.
  rewrite (insert_id h _ _ Ebuf), Eloop in L.
  cbn [fmap option_fmap option_map] in L.
  exists buf'. eexists. split; [|split; [|split; [|split; [|split; [|split]]]]].
  - unfold useFrame. rewrite Ecur. cbv zeta. rewrite Earr. fold tp.
    rewrite L. cbn [mbind option_bind]. reflexivity.
  - exact L.
  - split; [|split].
    + eexists. by split.
    + exists buf'. cbn [positions]. rewrite lookup_insert_eq. split; [done|lia].
    + exact Htg.
  - done.
  - done.
  - done.
  - intros i Hi. apply Hslots. lia.
Qed.

(** The store when the loop of a tick reaches particle [i]: the [positions]
    array still holds, for particle [i] and all later ones, what it held
    before the tick. *)
Lemma particles_reach (ps : ParticleSystem) (handState : HandState) (time : R)
    (h : gmap nat (list R)) (buf : list R) (i : nat) :
  mounted ps h ->
  h !! positions ps = Some buf ->
  (i < PARTICLE_COUNT)%nat ->
  exists buf_i,
    particles ps handState time i 0 h = Some (<[positions ps := buf_i]> h) /\
    (forall j, (i * 3 <= j)%nat -> buf_i !! j = buf !! j) /\
    particles ps handState time PARTICLE_COUNT 0 h
    = particles ps handState time (PARTICLE_COUNT - i) i
        (<[positions ps := buf_i]> h).
Proof.
  intros (_ & (buf0 & Ebuf0 & Hlen) & Htg) Ebuf Hi.
  assert (buf0 = buf) as -> by congruence.
  set (tp := selectTarget (targets ps) (gesture handState)).
  destruct (loop_slots handState time tp i 0 buf)
    as (buf_i & Eloop & Hlen' & Hout & _).
  { unfold tp. rewrite Htg. lia. }
  { lia. }
  pose proof (loop_one_buffer handState time tp (positions ps) h i 0 buf) as L.
  rewrite (insert_id h _ _ Ebuf), Eloop in L.
  cbn [fmap option_fmap option_map] in L.
  exists buf_i. split; [exact L|]. split.
  - intros j Hj. apply Hout. lia.
  - unfold particles in *. fold tp in L |- *.
    replace PARTICLE_COUNT with (i + (PARTICLE_COUNT - i))%nat at 1 by lia.
    rewrite for_loop_option_split, L. reflexivity.
Qed.

End MountedFacts.

Section EngineClaims.

Import Engine Mounted.

(** C1. One tick of the mounted engine moves every coordinate of every
    particle by exactly [current' = current + (adjustedTarget - current) *
    0.08]: [current] is the coordinate before the tick, [current'] after
    it, and [adjustedTarget] the target the loop body computes for the
    particle when the loop reaches it.  [LERP_SPEED] is 0.08. *)
Theorem useFrame_blend (ps : ParticleSystem) (handState : HandState)
    (time : R) (h : gmap nat (list R)) (i axis : nat) :
  mounted ps h ->
  (i < PARTICLE_COUNT)%nat ->
  (axis < 3)%nat ->
  LERP_SPEED = 0.08 /\
  exists h' ps' h_i adjustedTarget current current',
    useFrame ps handState time h = Some (h', ps') /\
    particles ps handState time i 0 h = Some h_i /\
    adjustTarget handState time
      (selectTarget (targets ps) (gesture handState)) (positions ps) i h_i
      = Some adjustedTarget /\
    read h (positions ps) (i * 3 + axis) = Some current /\
    read h' (positions ps) (i * 3 + axis) = Some current' /\
    current' = current + (coordinate axis adjustedTarget - current) * 0.08.
Proof.
  intros Hm Hi Ha. split; [reflexivity|].
  pose proof Hm as (_ & (buf & Ebuf & Hlen) & Htg).
  destruct (useFrame_slots ps handState time h buf Hm Ebuf)
    as (buf' & ps' & Euse & _ & _ & _ & _ & _ & Hslots).
  destruct (particles_reach ps handState time h buf i Hm Ebuf Hi)
    as (buf_i & Ereach & Hsame & _).
  destruct (Hslots i Hi) as (nx & ny & nz & Es & E0 & E1 & E2).
  destruct (slot_Some handState time
              (selectTarget (targets ps) (gesture handState)) buf i)
    as (rx & ry & rz & cx & cy & cz & Hrx & Hry & Hrz & Hcx & Hcy & Hcz & Es');
    [rewrite Htg; lia | lia |].
  rewrite Es in Es'.
  destruct (Spec.target (gesture handState) (openness handState) time i
              (rx, ry, rz) cx) as [[tx ty] tz] eqn:Et.
  injection Es' as -> -> ->.
  exists (<[positions ps := buf']> h), ps', (<[positions ps := buf_i]> h),
         (tx, ty, tz).
  assert (Eadj : adjustTarget handState time
                   (selectTarget (targets ps) (gesture handState))
                   (positions ps) i (<[positions ps := buf_i]> h)
                 = Some (tx, ty, tz)).
  { rewrite <- Et. apply adjustTarget_spec; try done.
    rewrite read_insert, Hsame by lia. done. }
  unfold read at 1. rewrite Ebuf. cbn [mbind option_bind].
  rewrite read_insert.
  destruct axis as [|[|[|?]]]; [| | |lia].
  - rewrite Nat.add_0_r. exists cx, (Spec.blend tx cx). by repeat split.
  - exists cy, (Spec.blend ty cy). by repeat split.
  - exists cz, (Spec.blend tz cz). by repeat split.
Qed.

(** C2. When the loop of a tick reaches particle [i], the target it
    computes is: for gesture NONE the sphere point scaled by
    [0.5 + openness * 1.5], with [sin(t + i*0.1)*0.2] added to X and
    [cos(t*0.5 + i*0.05)*0.2] added to Y; for gestures ONE to FOUR the point
    of glyph 1 to 4 with [sin(t*2 + currentX*0.5)*0.05] added to Y, where
    [currentX] is the X the particle has in the position buffer at that
    moment, which is its X of before the tick. *)
Theorem adjustTarget_formula (ps : ParticleSystem) (handState : HandState)
    (time : R) (h : gmap nat (list R)) (i : nat) :
  mounted ps h ->
  (i < PARTICLE_COUNT)%nat ->
  exists h_i rx ry rz currentX,
    particles ps handState time i 0 h = Some h_i /\
    particles ps handState time PARTICLE_COUNT 0 h
      = particles ps handState time (PARTICLE_COUNT - i) i h_i /\
    Spec.formation (targets ps) (gesture handState) !! (i * 3)%nat = Some rx /\
    Spec.formation (targets ps) (gesture handState) !! (i * 3 + 1)%nat
      = Some ry /\
    Spec.formation (targets ps) (gesture handState) !! (i * 3 + 2)%nat
      = Some rz /\
    read h_i (positions ps) (i * 3) = Some currentX /\
    read h (positions ps) (i * 3) = Some currentX /\
    adjustTarget handState time
      (selectTarget (targets ps) (gesture handState)) (positions ps) i h_i
    = Some (Spec.target (gesture handState) (openness handState) time i
              (rx, ry, rz) currentX).
Proof.
  intros Hm Hi.
  pose proof Hm as (_ & (buf & Ebuf & Hlen) & Htg).
  destruct (particles_reach ps handState time h buf i Hm Ebuf Hi)
    as (buf_i & Ereach & Hsame & Hcut).
  destruct (slot_Some handState time
              (selectTarget (targets ps) (gesture handState)) buf i)
    as (rx & ry & rz & cx & cy & cz & Hrx & Hry & Hrz & Hcx & _);
    [rewrite Htg; lia | lia |].
  exists (<[positions ps := buf_i]> h), rx, ry, rz, cx.
  rewrite <- selectTarget_formation.
  assert (Ecur : read (<[positions ps := buf_i]> h) (positions ps) (i * 3)
                 = Some cx).
  { rewrite read_insert, Hsame by lia. done. }
  repeat split; try done.
  - unfold read. rewrite Ebuf. done.
  - by apply adjustTarget_spec.
Qed.

End EngineClaims.

Section Convergence.

Import Engine Mounted.

(** A coordinate whose target a glyph leaves alone (X or Z), under a fixed
    glyph signal: after [n] ticks it is the [n]-fold blend toward its
    target. *)
Lemma ticks_unadjusted (ps : ParticleSystem) (handState : HandState)
    (clock : nat -> R) (h : gmap nat (list R)) (i axis : nat) (T c : R) :
  mounted ps h ->
  gesture handState <> NONE ->
  (i < PARTICLE_COUNT)%nat ->
  axis = 0%nat \/ axis = 2%nat ->
  selectTarget (targets ps) (gesture handState) !! (i * 3 + axis)%nat
    = Some T ->
  read h (positions ps) (i * 3 + axis) = Some c ->
  forall n,
    exists h_n ps_n,
      ticks handState clock n ps h = Some (h_n, ps_n) /\
      mounted ps_n h_n /\
      positions ps_n = positions ps /\
      targets ps_n = targets ps /\
      read h_n (positions ps) (i * 3 + axis)
        = Some (Nat.iter n (Spec.blend T) c).
Proof.
  intros Hm Hg Hi Ha HT Hc. induction n as [|n IH].
  - exists h, ps. split; [done|]. split; [exact Hm|]. by repeat split.
  - destruct IH as (h1 & ps1 & Et & Hm1 & Epos & Etg & Hr).
    pose proof Hm1 as (_ & (buf & Ebuf & Hlen) & Htg).
    destruct (useFrame_slots ps1 handState (clock n) h1 buf Hm1 Ebuf)
      as (buf' & ps' & Euse & _ & Hm' & Epos' & Etg' & _ & Hslots).
    destruct (Hslots i Hi) as (nx & ny & nz & Es & E0 & E1 & E2).
    destruct (slot_Some handState (clock n)
                (selectTarget (targets ps1) (gesture handState)) buf i)
      as (rx & ry & rz & cx & cy & cz &
          Hrx & Hry & Hrz & Hcx & Hcy & Hcz & Es');
      [rewrite Htg; lia | lia |].
    rewrite Es in Es'. rewrite Etg in *. rewrite Epos in *.
    unfold read in Hr. rewrite Ebuf in Hr. cbn [mbind option_bind] in Hr.
    exists (<[positions ps := buf']> h1), ps'.
    split; [|split; [|split; [|split]]].
    + cbn [ticks]. rewrite Et. cbn [mbind option_bind]. exact Euse.
    + exact Hm'.
    + congruence.
    + congruence.
    + rewrite read_insert, Nat.iter_succ.
      destruct (gesture handState) eqn:Eg; [done|..];
        cbn [Spec.target] in Es'; injection Es' as -> -> ->;
        (destruct Ha as [-> | ->];
         [ rewrite Nat.add_0_r in *; rewrite E0; congruence
         | rewrite E2; congruence ]).
Qed.

End Convergence.

Section LerpFacts.

Lemma F2R_between (a : spec_float) (lo hi : Q) :
  Qle_bool lo (IEEE.F2Q a) && Qle_bool (IEEE.F2Q a) hi = true ->
  Q2R lo <= IEEE.F2R a <= Q2R hi.
Proof.
  intros [H1 H2]%andb_prop.
  apply Qle_bool_iff in H1, H2. split; by apply Qle_Rle.
Qed.

Lemma F2R_lt (a b : spec_float) :
  negb (Qle_bool (IEEE.F2Q b) (IEEE.F2Q a)) = true -> IEEE.F2R a < IEEE.F2R b.
Proof.
  intros H. apply Qlt_Rlt, Qnot_le_lt. intros Hle.
  apply Qle_bool_iff in Hle. by rewrite Hle in H.
Qed.

Lemma along_spec {A : Type} (f : A -> A) (P : A -> bool) (n : nat) (a : A) :
  IEEE.along f P n a = true ->
  forall j, (j < n)%nat -> P (Nat.iter j f a) = true.
Proof.
  revert a. induction n as [|n IH]; intros a H j Hj; [lia|].
  cbn [IEEE.along] in H. apply andb_prop in H as [H0 H1].
  destruct j as [|j]; [exact H0|].
  rewrite Nat.iter_succ_r. apply IH; [exact H1 | lia].
Qed.

Lemma lerp_iter_S (n : nat) :
  IEEE.climb (S n) = IEEE.lerp_store (IEEE.of_Z 10) (IEEE.climb n).
Proof. reflexivity. Qed.

(** The run carries the coordinate and the power of 0.92. *)
Lemma run_spec (n : nat) :
  (IEEE.climb_run n).1 = IEEE.climb n /\ Q2R (IEEE.climb_run n).2 = 0.92 ^ n.
Proof.
  induction n as [|n [IH1 IH2]].
  - split; [reflexivity|]. unfold Q2R. cbn. lra.
  - unfold IEEE.climb_run. rewrite Nat.iter_succ. fold (IEEE.climb_run n).
    unfold IEEE.lerp_tick. cbn [fst snd]. split.
    + by rewrite IH1.
    + rewrite (Qeq_eqR _ _ (Qred_correct _)), Q2R_mult, IH2, Q2R_92.
      cbn [pow]. lra.
Qed.

(** The first 171 ticks each raise the stored coordinate. *)
Lemma lerp_iter_rising :
  IEEE.along (IEEE.lerp_tick (IEEE.of_Z 10))
    (fun s => negb (Qle_bool
                      (IEEE.F2Q (IEEE.lerp_store (IEEE.of_Z 10) s.1))
                      (IEEE.F2Q s.1)))
    171 (IEEE.of_Z 0, 1%Q) = true.
Proof. by vm_compute. Qed.

(** Through tick 171 the stored coordinate is within [10^-5] of the closed
    form, not negative and at most [10 - 2^-20]. *)
Lemma lerp_iter_near :
  IEEE.along (IEEE.lerp_tick (IEEE.of_Z 10))
    (fun s =>
       Qle_bool ((10 # 1) * (1 - s.2) - (1 # 100000)) (IEEE.F2Q s.1)
       && Qle_bool (IEEE.F2Q s.1) ((10 # 1) * (1 - s.2) + (1 # 100000)))
    172 (IEEE.of_Z 0, 1%Q) = true.
Proof. by vm_compute. Qed.

Lemma lerp_iter_below :
  IEEE.along (IEEE.lerp_tick (IEEE.of_Z 10))
    (fun s => Qle_bool (0 # 1) (IEEE.F2Q s.1)
              && Qle_bool (IEEE.F2Q s.1) (10485759 # 1048576))
    172 (IEEE.of_Z 0, 1%Q) = true.
Proof. by vm_compute. Qed.

(** Tick 172 stores what tick 171 stored. *)
Lemma lerp_iter_stalls (n : nat) :
  (171 <= n)%nat -> IEEE.climb n = IEEE.climb 171%nat.
Proof.
  induction 1 as [|n Hn IH]; [done|].
  rewrite lerp_iter_S, IH. by vm_compute.
Qed.

Lemma lerp_iter_stall_value :
  IEEE.F2R (IEEE.climb 171%nat) = 10 - 6 / 1048576.
Proof.
  rewrite (F2R_of_Qeq _ (5242877 # 524288)); [|by vm_compute].
  unfold Q2R. cbn [Qnum Qden]. lra.
Qed.

Lemma pow_92_171 : 0.92 ^ 171 <= 7 / 10000000.
Proof.
  rewrite <- Q2R_92, <- Q2R_qpow.
  replace (7 / 10000000) with (Q2R (7 # 10000000))
    by (unfold Q2R; cbn [Qnum Qden]; lra).
  apply Qle_Rle, Qle_bool_iff. by vm_compute.
Qed.

Lemma pow_92_range (m : nat) : 0 < 0.92 ^ m <= 1.
Proof.
  induction m as [|m IH]; cbn [pow]; [lra|]. nra.
Qed.

Lemma lerp_iter_near_R (n : nat) :
  Rabs (IEEE.F2R (IEEE.climb n) - 10 * (1 - 0.92 ^ n)) <= / 100000.
Proof.
  apply Rabs_le.
  destruct (Nat.lt_ge_cases n 172) as [Hn | Hn].
  - pose proof (along_spec _ _ _ _ lerp_iter_near n Hn) as H.
    fold (IEEE.climb_run n) in H. cbv beta in H.
    destruct (run_spec n) as [E1 E2]. rewrite E1 in H.
    apply F2R_between in H.
    rewrite Q2R_minus, Q2R_plus, !Q2R_mult, Q2R_minus, E2 in H.
    replace (Q2R (10 # 1)) with 10 in H
      by (unfold Q2R; cbn [Qnum Qden]; lra).
    replace (Q2R 1) with 1 in H by (unfold Q2R; cbn [Qnum Qden]; lra).
    replace (Q2R (1 # 100000)) with (/ 100000) in H
      by (unfold Q2R; cbn [Qnum Qden]; lra).
    lra.
  - rewrite (lerp_iter_stalls n) by lia. rewrite lerp_iter_stall_value.
    replace n with (171 + (n - 171))%nat by lia. rewrite pow_add.
    pose proof pow_92_171 as H1. pose proof (pow_92_range 171) as H2.
    pose proof (pow_92_range (n - 171)) as H3.
    set (p := 0.92 ^ 171) in *. set (q := 0.92 ^ (n - 171)) in *.
    assert (0 < p * q <= 7 / 10000000) by nra.
    lra.
Qed.

Lemma lerp_iter_below_R (n : nat) : 0 <= IEEE.F2R (IEEE.climb n) < 10.
Proof.
  destruct (Nat.lt_ge_cases n 172) as [Hn | Hn].
  - pose proof (along_spec _ _ _ _ lerp_iter_below n Hn) as H.
    fold (IEEE.climb_run n) in H. cbv beta in H.
    destruct (run_spec n) as [E1 _]. rewrite E1 in H.
    apply F2R_between in H.
    replace (Q2R (0 # 1)) with 0 in H by (unfold Q2R; cbn [Qnum Qden]; lra).
    replace (Q2R (10485759 # 1048576)) with (10 - 1 / 1048576) in H
      by (unfold Q2R; cbn [Qnum Qden]; lra).
    lra.
  - rewrite (lerp_iter_stalls n) by lia. rewrite lerp_iter_stall_value. lra.
Qed.

Lemma lerp_iter_rising_R (n : nat) :
  (n < 171)%nat -> IEEE.F2R (IEEE.climb n) < IEEE.F2R (IEEE.climb (S n)).
Proof.
  intros Hn.
  pose proof (along_spec _ _ _ _ lerp_iter_rising n Hn) as H.
  fold (IEEE.climb_run n) in H. cbv beta in H.
  destruct (run_spec n) as [E1 _]. rewrite E1 in H.
  by apply F2R_lt.
Qed.

Lemma lerp_iter_first : IEEE.F2R (IEEE.climb 1%nat) = 13421773 / 16777216.
Proof.
  rewrite (F2R_of_Qeq _ (13421773 # 16777216)); [|by vm_compute].
  unfold Q2R. cbn [Qnum Qden]. lra.
Qed.

End LerpFacts.

Section LerpClaims.

(** The claim of C5 as the specification words it, refuted in the
    arithmetic of the source: after one tick the stored coordinate is
    [13421773 / 2^24 = 0.800000011920929], not [10 * (1 - 0.92) = 0.8]; and
    tick 172 stores what tick 171 stored, so the sequence does not increase
    at every step. *)
Lemma lerp_store_not_closed_form :
  IEEE.F2R (IEEE.lerp_iter (IEEE.of_Z 10) (IEEE.of_Z 0) 1)
    = 13421773 / 16777216 /\
  IEEE.lerp_iter (IEEE.of_Z 10) (IEEE.of_Z 0) 172
    = IEEE.lerp_iter (IEEE.of_Z 10) (IEEE.of_Z 0) 171 /\
  ~ (forall n,
       IEEE.F2R (IEEE.lerp_iter (IEEE.of_Z 10) (IEEE.of_Z 0) n)
       = 10 * (1 - 0.92 ^ n)) /\
  ~ (forall n,
       IEEE.F2R (IEEE.lerp_iter (IEEE.of_Z 10) (IEEE.of_Z 0) n)
       < IEEE.F2R (IEEE.lerp_iter (IEEE.of_Z 10) (IEEE.of_Z 0) (S n))).
Proof.
  pose proof lerp_iter_first as H1.
  pose proof (lerp_iter_stalls 172 ltac:(lia)) as H2.
  unfold IEEE.climb in H1, H2.
  split; [exact H1|]. split; [exact H2|]. split.
  - intros H. specialize (H 1%nat). rewrite H1 in H. cbn [pow] in H. lra.
  - intros H. specialize (H 171%nat). rewrite H2 in H. lra.
Qed.

(** C5. The blend step of the loop body, [c += (10 - c) * 0.08] on an
    element of the [Float32Array] position buffer, iterated from 0: after
    [n] ticks the stored coordinate is within [10^-5] of
    [10 * (1 - 0.92^n)]; it rises strictly for the first 171 ticks and stays
    at [10 - 6 / 2^20 = 9.999994277954102] from tick 171 on; it never
    exceeds and never reaches 10. *)
Theorem lerp_store_iterates (n : nat) :
  let c := IEEE.lerp_iter (IEEE.of_Z 10) (IEEE.of_Z 0) in
  c (S n) = IEEE.lerp_store (IEEE.of_Z 10) (c n) /\
  Rabs (IEEE.F2R (c n) - 10 * (1 - 0.92 ^ n)) <= / 100000 /\
  ((n < 171)%nat -> IEEE.F2R (c n) < IEEE.F2R (c (S n))) /\
  ((171 <= n)%nat ->
     c (S n) = c n /\ IEEE.F2R (c n) = 10 - 6 / 1048576) /\
  0 <= IEEE.F2R (c n) < 10.
Proof.
  cbv zeta. fold (IEEE.climb n) (IEEE.climb (S n)).
  split; [reflexivity|].
  split; [apply lerp_iter_near_R|].
  split; [apply lerp_iter_rising_R|].
  split; [|apply lerp_iter_below_R].
  intros Hn. split.
  - rewrite (lerp_iter_stalls (S n)), (lerp_iter_stalls n) by lia. done.
  - rewrite (lerp_iter_stalls n) by lia. apply lerp_iter_stall_value.
Qed.

End LerpClaims.

Section ConvergenceClaims.

Import Engine Mounted.

(** C10. Before any hand frame the signal is gesture NONE, openness 1.0,
    position (0, 0).  Under that signal a tick of the mounted engine targets,
    for every particle, the sphere point scaled by [0.5 + 1.0 * 1.5 = 2]
    (plus the idle noise on X and Y) and blends the particle toward it. *)
Theorem initial_signal_doubles_sphere (ps : ParticleSystem) (time : R)
    (h : gmap nat (list R)) (i : nat) :
  mounted ps h ->
  (i < PARTICLE_COUNT)%nat ->
  gesture Classifier.initialHandState = NONE /\
  openness Classifier.initialHandState = 1 /\
  position Classifier.initialHandState = {| x := 0; y := 0 |} /\
  0.5 + openness Classifier.initialHandState * 1.5 = 2 /\
  exists sx sy sz cx cy cz h_i h' ps',
    sphere (targets ps) !! (i * 3)%nat = Some sx /\
    sphere (targets ps) !! (i * 3 + 1)%nat = Some sy /\
    sphere (targets ps) !! (i * 3 + 2)%nat = Some sz /\
    read h (positions ps) (i * 3) = Some cx /\
    read h (positions ps) (i * 3 + 1) = Some cy /\
    read h (positions ps) (i * 3 + 2) = Some cz /\
    particles ps Classifier.initialHandState time i 0 h = Some h_i /\
    adjustTarget Classifier.initialHandState time
      (selectTarget (targets ps) (gesture Classifier.initialHandState))
      (positions ps) i h_i
    = Some (sx * 2 + sin (time + INR i * 0.1) * 0.2,
            sy * 2 + cos (time * 0.5 + INR i * 0.05) * 0.2,
            sz * 2) /\
    useFrame ps Classifier.initialHandState time h = Some (h', ps') /\
    read h' (positions ps) (i * 3)
      = Some (Spec.blend (sx * 2 + sin (time + INR i * 0.1) * 0.2) cx) /\
    read h' (positions ps) (i * 3 + 1)
      = Some (Spec.blend (sy * 2 + cos (time * 0.5 + INR i * 0.05) * 0.2) cy) /\
    read h' (positions ps) (i * 3 + 2) = Some (Spec.blend (sz * 2) cz).
Proof.
  intros Hm Hi.
  split; [done|]. split; [cbn; lra|]. split; [done|]. split; [cbn; lra|].
  set (hs := Classifier.initialHandState).
  pose proof Hm as (_ & (buf & Ebuf & Hlen) & Htg).
  destruct (useFrame_slots ps hs time h buf Hm Ebuf)
    as (buf' & ps' & Euse & _ & _ & _ & _ & _ & Hslots).
  destruct (particles_reach ps hs time h buf i Hm Ebuf Hi)
    as (buf_i & Ereach & Hsame & _).
  destruct (Hslots i Hi) as (nx & ny & nz & Es & E0 & E1 & E2).
  destruct (slot_Some hs time (selectTarget (targets ps) (gesture hs)) buf i)
    as (rx & ry & rz & cx & cy & cz & Hrx & Hry & Hrz & Hcx & Hcy & Hcz & Es');
    [rewrite Htg; lia | lia |].
  rewrite Es in Es'.
  assert (Et : Spec.target (gesture hs) (openness hs) time i (rx, ry, rz) cx
               = (rx * 2 + sin (time + INR i * 0.1) * 0.2,
                  ry * 2 + cos (time * 0.5 + INR i * 0.05) * 0.2,
                  rz * 2)).
  { cbn [hs Classifier.initialHandState gesture openness Spec.target].
    f_equal; [f_equal|]; lra. }
  rewrite Et in Es'. injection Es' as -> -> ->.
  exists rx, ry, rz, cx, cy, cz, (<[positions ps := buf_i]> h),
         (<[positions ps := buf']> h), ps'.
  unfold read at 1 2 3. rewrite Ebuf. cbn [mbind option_bind].
  rewrite !read_insert.
  repeat split; try done.
  rewrite <- Et. apply adjustTarget_spec; try done.
  rewrite read_insert, Hsame by lia. done.
Qed.

End ConvergenceClaims.

(** * The theorems at sample inputs *)

Section Witnesses.

Import Classifier Engine Mounted.

Lemma sample_mounted : mounted Samples.system Samples.store.
Proof.
  split; [|split].
  - eexists. by split.
  - exists (Samples.flat 0). split; [done|]. apply length_replicate.
  - intros g. destruct g; apply length_replicate.
Qed.

Lemma sample_particle : (0 < PARTICLE_COUNT)%nat.
Proof. unfold PARTICLE_COUNT. lia. Qed.

Lemma sample_finger_up (tip pip : nat) :
  Samples.two_fingers !! tip = Some Samples.raised ->
  Samples.two_fingers !! pip = Some Samples.mid ->
  true = true <-> Spec.finger_up Samples.two_fingers tip pip.
Proof.
  intros Et Ep. split; [|done]. intros _.
  exists Samples.raised, Samples.mid. repeat split; try done.
  cbn [Samples.raised Samples.mid y]. lra.
Qed.

Lemma sample_finger_down (tip pip : nat) :
  Samples.two_fingers !! tip = Some Samples.mid ->
  Samples.two_fingers !! pip = Some Samples.mid ->
  false = true <-> Spec.finger_up Samples.two_fingers tip pip.
Proof.
  intros Et Ep. split; [done|]. intros (t & p & Et' & Ep' & Hlt).
  rewrite Et in Et'. rewrite Ep in Ep'.
  injection Et' as <-. injection Ep' as <-. lra.
Qed.

Lemma analyzeGesture_finger_count_witness :
  (2 <= 4)%nat /\
  exists s, analyzeGesture Samples.two_fingers = Ok s /\
            gesture s = TWO /\
            GestureType_value (gesture s) = 2%nat.
Proof.
  apply (analyzeGesture_finger_count Samples.two_fingers
           true true false false 2).
  - reflexivity.
  - by apply sample_finger_up.
  - by apply sample_finger_up.
  - by apply sample_finger_down.
  - by apply sample_finger_down.
  - reflexivity.
Defined.


Lemma detect_no_hand_witness :
  exists s, detect true (mkResult (Some [])) Samples.earlier_signal = Ok s /\
            gesture s = NONE /\
            openness s = openness Samples.earlier_signal /\
            position s = position Samples.earlier_signal /\
            stateAfter Samples.earlier_signal
              (detect true (mkResult (Some [])) Samples.earlier_signal) = s.
Proof.
  apply (detect_no_hand (mkResult (Some [])) Samples.earlier_signal).
  right. reflexivity.
Defined.

Lemma analyzeGesture_wrong_length_witness :
  ((length (@nil Landmark) < 21)%nat /\
   detect true (mkResult (Some [[]])) Samples.earlier_signal
     = Throw TypeError /\
   stateAfter Samples.earlier_signal
     (detect true (mkResult (Some [[]])) Samples.earlier_signal)
   = Samples.earlier_signal)
  \/
  ((21 < length (@nil Landmark))%nat /\
   exists s,
     detect true (mkResult (Some [[]])) Samples.earlier_signal = Ok s /\
     analyzeGesture (take 21 []) = Ok s /\
     stateAfter Samples.earlier_signal
       (detect true (mkResult (Some [[]])) Samples.earlier_signal) = s).
Proof.
  apply (analyzeGesture_wrong_length [] [] Samples.earlier_signal).
  cbn. lia.
Defined.

Lemma samplePointsFromText_degraded_witness :
  Sampler.samplePointsFromText (Some Samples.dark_canvas) "日" 5 140
    Samples.zero_draw 0%nat
    = (replicate (5 * 3) 0, 0%nat) /\
  length (Sampler.samplePointsFromText (Some Samples.dark_canvas) "日" 5 140
            Samples.zero_draw 0%nat).1 = (3 * 5)%nat /\
  forall j, (j < 3 * 5)%nat ->
    (Sampler.samplePointsFromText (Some Samples.dark_canvas) "日" 5 140
       Samples.zero_draw 0%nat).1 !! j = Some 0.
Proof.
  apply (samplePointsFromText_degraded (Some Samples.dark_canvas) "日" 5 140
           Samples.zero_draw 0%nat).
  right. exists Samples.dark_canvas. split; [reflexivity|].
  intros px py v _ _ H. apply lookup_replicate in H as [-> _]. lia.
Defined.

End Witnesses.

Section EngineWitnesses.

Import Classifier Engine Mounted.

Lemma sample_target (g : GestureType) (j : nat) :
  (j < 3 * PARTICLE_COUNT)%nat ->
  Spec.formation (targets Samples.system) g !! j = Some 10.
Proof. intros Hj. destruct g; by apply lookup_replicate_2. Qed.

Lemma sample_current (j : nat) :
  (j < 3 * PARTICLE_COUNT)%nat ->
  read Samples.store (positions Samples.system) j = Some 0.
Proof.
  intros Hj. unfold read, Samples.store. cbn [Samples.system mount positions].
  rewrite lookup_insert_ne, lookup_insert_eq by done.
  by apply lookup_replicate_2.
Qed.

Lemma useFrame_blend_witness :
  mounted Samples.system Samples.store /\
  LERP_SPEED = 0.08 /\
  exists h' ps' h_i adjustedTarget current current',
    useFrame Samples.system Samples.glyph_signal 0 Samples.store
      = Some (h', ps') /\
    particles Samples.system Samples.glyph_signal 0 0 0 Samples.store
      = Some h_i /\
    adjustTarget Samples.glyph_signal 0
      (selectTarget (targets Samples.system) (gesture Samples.glyph_signal))
      (positions Samples.system) 0 h_i
      = Some adjustedTarget /\
    read Samples.store (positions Samples.system) (0 * 3 + 2) = Some current /\
    read h' (positions Samples.system) (0 * 3 + 2) = Some current' /\
    current' = current + (coordinate 2 adjustedTarget - current) * 0.08.
Proof.
  split; [exact sample_mounted|].
  apply (useFrame_blend Samples.system Samples.glyph_signal 0
           Samples.store 0 2).
  - exact sample_mounted.
  - exact sample_particle.
  - lia.
Defined.

Lemma adjustTarget_formula_witness :
  exists h_i rx ry rz currentX,
    particles Samples.system Samples.glyph_signal 0 0 0 Samples.store
      = Some h_i /\
    particles Samples.system Samples.glyph_signal 0 PARTICLE_COUNT 0
      Samples.store
      = particles Samples.system Samples.glyph_signal 0
          (PARTICLE_COUNT - 0) 0 h_i /\
    Spec.formation (targets Samples.system) (gesture Samples.glyph_signal)
      !! (0 * 3)%nat = Some rx /\
    Spec.formation (targets Samples.system) (gesture Samples.glyph_signal)
      !! (0 * 3 + 1)%nat = Some ry /\
    Spec.formation (targets Samples.system) (gesture Samples.glyph_signal)
      !! (0 * 3 + 2)%nat = Some rz /\
    read h_i (positions Samples.system) (0 * 3) = Some currentX /\
    read Samples.store (positions Samples.system) (0 * 3) = Some currentX /\
    adjustTarget Samples.glyph_signal 0
      (selectTarget (targets Samples.system) (gesture Samples.glyph_signal))
      (positions Samples.system) 0 h_i
    = Some (Spec.target (gesture Samples.glyph_signal)
              (openness Samples.glyph_signal) 0 0 (rx, ry, rz) currentX).
Proof.
  apply (adjustTarget_formula Samples.system Samples.glyph_signal 0
           Samples.store 0).
  - exact sample_mounted.
  - exact sample_particle.
Defined.

Lemma initial_signal_doubles_sphere_witness :
  mounted Samples.first_system Samples.first_store /\
  gesture initialHandState = NONE /\
  openness initialHandState = 1 /\
  position initialHandState = {| x := 0; y := 0 |} /\
  0.5 + openness initialHandState * 1.5 = 2 /\
  exists sx sy sz cx cy cz h_i h' ps',
    sphere (targets Samples.first_system) !! (0 * 3)%nat = Some sx /\
    sphere (targets Samples.first_system) !! (0 * 3 + 1)%nat = Some sy /\
    sphere (targets Samples.first_system) !! (0 * 3 + 2)%nat = Some sz /\
    read Samples.first_store (positions Samples.first_system) (0 * 3)
      = Some cx /\
    read Samples.first_store (positions Samples.first_system) (0 * 3 + 1)
      = Some cy /\
    read Samples.first_store (positions Samples.first_system) (0 * 3 + 2)
      = Some cz /\
    particles Samples.first_system initialHandState 0 0 0 Samples.first_store
      = Some h_i /\
    adjustTarget initialHandState 0
      (selectTarget (targets Samples.first_system) (gesture initialHandState))
      (positions Samples.first_system) 0 h_i
    = Some (sx * 2 + sin (0 + INR 0 * 0.1) * 0.2,
            sy * 2 + cos (0 * 0.5 + INR 0 * 0.05) * 0.2,
            sz * 2) /\
    useFrame Samples.first_system initialHandState 0 Samples.first_store
      = Some (h', ps') /\
    read h' (positions Samples.first_system) (0 * 3)
      = Some (Spec.blend (sx * 2 + sin (0 + INR 0 * 0.1) * 0.2) cx) /\
    read h' (positions Samples.first_system) (0 * 3 + 1)
      = Some (Spec.blend (sy * 2 + cos (0 * 0.5 + INR 0 * 0.05) * 0.2) cy) /\
    read h' (positions Samples.first_system) (0 * 3 + 2)
      = Some (Spec.blend (sz * 2) cz).
Proof.
  split; [apply render_mounted|].
  apply (initial_signal_doubles_sphere Samples.first_system 0
           Samples.first_store 0).
  - apply render_mounted.
  - exact sample_particle.
Defined.

End EngineWitnesses.

(** * Further properties of the classifier *)

Section ClassifierExtras.

Import Classifier.

(** A signal is only ever produced from a frame of at least 21 landmarks. *)
Lemma analyzeGesture_Ok_length (lms : list Landmark) (s : HandState) :
  analyzeGesture lms = Ok s -> (21 <= length lms)%nat.
Proof.
  intros E. destruct (decide (length lms < 21)%nat) as [Hlt|]; [|lia].
  rewrite analyzeGesture_Throw in E by done. discriminate.
Qed.

Lemma isFingerUp_ext (l1 l2 : list Landmark) (tip pip : nat) :
  l1 !! tip = l2 !! tip -> l1 !! pip = l2 !! pip ->
  isFingerUp l1 tip pip = isFingerUp l2 tip pip.
Proof. intros Ht Hp. unfold isFingerUp, element. by rewrite Ht, Hp. Qed.

Lemma clamp_range (v : R) : 0 <= Rmin (Rmax v 0) 1.5 <= 1.5.
Proof.
  unfold Rmin, Rmax.
  repeat (destruct (Rle_dec _ _)); lra.
Qed.


(** The openness of a produced signal, in the words of the landmarks. *)
Lemma analyzeGesture_openness_eq (lms : list Landmark) (s : HandState) :
  analyzeGesture lms = Ok s ->
  exists thumbTip indexTip wrist,
    lms !! 4%nat = Some thumbTip /\ lms !! 8%nat = Some indexTip /\
    lms !! 0%nat = Some wrist /\
    openness s
      = Rmin (Rmax ((Spec.distance thumbTip indexTip - 0.05) * 4) 0) 1.5 /\
    position s = {| x := (x wrist - 0.5) * -2; y := (y wrist - 0.5) * -2 |}.
Proof.
  intros E. pose proof (analyzeGesture_Ok_length _ _ E) as Hlen.
  destruct (analyzeGesture_Ok lms Hlen) as
    (b1 & b2 & b3 & b4 & tt & it & w & _ & _ & _ & _ & E4 & E8 & E0 & E').
  rewrite E' in E. injection E as <-.
  exists tt, it, w. repeat split; try done.
  cbn [openness]. unfold Math_sqrt, Math_pow, Math_min, Math_max, Spec.distance.
  cbn [pow]. by rewrite !Rmult_1_r.
Qed.


(** Whatever the detection loop has seen, the openness of the signal lies
    between 0 and 1.5, once it did. *)
Lemma detect_openness_range (ready : bool) (results : HandLandmarkerResult)
    (prev s : HandState) :
  0 <= openness prev <= 1.5 ->
  detect ready results prev = Ok s ->
  0 <= openness s <= 1.5.
Proof.
  intros Hprev. unfold detect.
  destruct ready; [|by intros [= <-]].
  destruct (landmarks results) as [[|hand others]|];
    [by intros [= <-] | | by intros [= <-]].
  intros E. destruct (analyzeGesture_openness_eq _ _ E)
    as (tt & it & w & _ & _ & _ & -> & _).
  apply clamp_range.
Qed.

(** The range of the openness is an invariant of the detection loop. *)
Lemma detections_range (frames : list (bool * HandLandmarkerResult))
    (s : HandState) :
  0 <= openness s <= 1.5 ->
  0 <= openness (Driver.detections frames s) <= 1.5.
Proof.
  revert s.
  induction frames as [|[ready results] rest IH]; intros s Hs; [done|].
  cbn [Driver.detections].
  destruct (detect ready results s) as [s'|e] eqn:E; [|done].
  apply IH. by eapply detect_openness_range.
Qed.

End ClassifierExtras.

Section ClassifierExtraTheorems.

Import Classifier.

(** X1. Every signal the classifier produces has its openness between 0
    and 1.5; when the wrist landmark is normalised (both coordinates
    between 0 and 1) its position is the wrist mirrored about the image
    centre, [1 - 2 * wrist], and lies between -1 and 1 on both axes. *)
Theorem analyzeGesture_signal_range
    (lms : list Landmark) (s : HandState) (wrist : Landmark) :
  analyzeGesture lms = Ok s ->
  lms !! 0%nat = Some wrist ->
  0 <= x wrist <= 1 ->
  0 <= y wrist <= 1 ->
  0 <= openness s <= 1.5 /\
  x (position s) = 1 - 2 * x wrist /\
  y (position s) = 1 - 2 * y wrist /\
  -1 <= x (position s) <= 1 /\
  -1 <= y (position s) <= 1.
Proof.
  intros E E0 Hx Hy.
  destruct (analyzeGesture_openness_eq _ _ E)
    as (tt & it & w & _ & _ & E0' & -> & ->).
  assert (w = wrist) as -> by congruence.
  split; [apply clamp_range|]. cbn [x y]. lra.
Qed.

(** X2. The classifier reads landmarks 0, 4, 6, 8, 10, 12, 14, 16, 18 and
    20 and nothing else: two frames of at least 21 landmarks that agree
    there are classified alike, whatever their other landmarks (the thumb
    joint 3 and anything past index 20 included). *)
Theorem analyzeGesture_landmarks_read (l1 l2 : list Landmark) :
  (21 <= length l1)%nat ->
  (21 <= length l2)%nat ->
  (forall i, i ∈ [0; 4; 6; 8; 10; 12; 14; 16; 18; 20]%nat ->
     l1 !! i = l2 !! i) ->
  analyzeGesture l1 = analyzeGesture l2.
Proof.
  intros H1 H2 Hagree.
  assert (Hat : forall i, i ∈ [0; 4; 6; 8; 10; 12; 14; 16; 18; 20]%nat ->
                          l1 !! i = l2 !! i) by exact Hagree.
  destruct (analyzeGesture_Ok l1 H1) as
    (b1 & b2 & b3 & b4 & tt & it & w &
     F1 & F2 & F3 & F4 & E4 & E8 & E0 & ->).
  destruct (analyzeGesture_Ok l2 H2) as
    (c1 & c2 & c3 & c4 & tt' & it' & w' &
     G1 & G2 & G3 & G4 & D4 & D8 & D0 & ->).
  rewrite (isFingerUp_ext l1 l2 8 6) in F1 by (apply Hat; set_solver).
  rewrite (isFingerUp_ext l1 l2 12 10) in F2 by (apply Hat; set_solver).
  rewrite (isFingerUp_ext l1 l2 16 14) in F3 by (apply Hat; set_solver).
  rewrite (isFingerUp_ext l1 l2 20 18) in F4 by (apply Hat; set_solver).
  rewrite (Hat 4%nat) in E4 by set_solver.
  rewrite (Hat 8%nat) in E8 by set_solver.
  rewrite (Hat 0%nat) in E0 by set_solver.
  congruence.
Qed.


(** X4. From the initial signal, whatever frames the detection loop goes
    through (not ready, no hand, a hand, a malformed frame that ends the
    loop), the openness of the signal the component holds stays between 0
    and 1.5. *)
Theorem detections_openness_range
    (frames : list (bool * HandLandmarkerResult)) :
  0 <= openness (Driver.detections frames initialHandState) <= 1.5.
Proof.
  assert (H0 : 0 <= openness initialHandState <= 1.5) by (cbn; lra).
  revert H0. generalize initialHandState.
  induction frames as [|[ready results] rest IH]; intros s Hs; [done|].
  cbn [Driver.detections].
  destruct (detect ready results s) as [s'|e] eqn:E; [|done].
  apply IH. by eapply detect_openness_range.
Qed.

End ClassifierExtraTheorems.

(** * Further properties of the formation sampler *)

Section ScanFacts.

Import Sampler Pixels.

(** An invariant that follows the index of a loop without effects. *)
Lemma for_loop_Id_ind {St : Type} (P : nat -> St -> Prop)
    (body : nat -> St -> Id St) :
  forall (n start : nat) (s : St),
    P start s ->
    (forall i s', (start <= i < start + n)%nat ->
       P i s' -> P (S i) (body i s')) ->
    P (start + n)%nat (for_loop (M := Id) n start body s).
Proof.
  induction n as [|n IH]; intros start s Hs Hbody.
  - by rewrite Nat.add_0_r.
  - cbn [for_loop]. unfold mbind, Id_bind.
    replace (start + S n)%nat with (S start + n)%nat by lia.
    apply IH.
    + apply Hbody; [lia | done].
    + intros i s' Hi. apply Hbody. lia.
Qed.

Lemma flatten_app (p q : list (nat * nat)) :
  flatten (p ++ q) = flatten p ++ flatten q.
Proof. unfold flatten. apply bind_app. Qed.

Lemma flatten_lookup (pixels : list (nat * nat)) (j : nat) :
  flatten pixels !! (2 * j)%nat = fst <$> pixels !! j /\
  flatten pixels !! (2 * j + 1)%nat = snd <$> pixels !! j.
Proof.
  revert j. induction pixels as [|[a b] pixels IH]; intros j; [done|].
  destruct j as [|j]; [done|].
  replace (2 * S j)%nat with (S (S (2 * j))) by lia.
  replace (S (S (2 * j)) + 1)%nat with (S (S (2 * j + 1))) by lia.
  cbn. apply IH.
Qed.

Lemma listed_flatten (pixels : list (nat * nat)) (px py : nat) :
  listed (flatten pixels) px py <-> (px, py) ∈ pixels.
Proof.
  unfold listed. split.
  - intros (j & E1 & E2).
    destruct (flatten_lookup pixels j) as [F1 F2].
    rewrite F1 in E1. rewrite F2 in E2.
    destruct (pixels !! j) as [[a b]|] eqn:E; [|done].
    cbn in E1, E2. injection E1 as ->. injection E2 as ->.
    by eapply list_elem_of_lookup_2.
  - intros Hin. apply list_elem_of_lookup_1 in Hin as [j E].
    exists j. destruct (flatten_lookup pixels j) as [-> ->].
    by rewrite E.
Qed.

(** What the scan has collected when it stands at row [row], column [col]:
    the filled pixels of the rows above and of the columns to the left. *)
Lemma findWhitePixels_flatten (data : list Z) (width height : nat) :
  exists pixels,
    findWhitePixels data width height = flatten pixels /\
    forall px py, (px, py) ∈ pixels <->
      (px < width)%nat /\ (py < height)%nat /\ bright data width px py.
Proof.
  unfold findWhitePixels.
  pose proof (for_loop_Id_ind
    (fun row vp => exists pixels, vp = flatten pixels /\
       forall px py, (px, py) ∈ pixels <->
         (px < width)%nat /\ (py < row)%nat /\ bright data width px py)) as L.
  apply (L _ height 0%nat []).
  - exists []. split; [done|]. intros px py.
    split; [set_solver | intros (_ & H & _); lia].
  - intros row vp Hrow (pixels & -> & Hpix).
    pose proof (for_loop_Id_ind
      (fun col vp => exists pixels, vp = flatten pixels /\
         forall px py, (px, py) ∈ pixels <->
           ((px < width)%nat /\ (py < row)%nat /\ bright data width px py) \/
           ((px < col)%nat /\ py = row /\ bright data width px py))) as L'.
    match goal with |- context [for_loop width 0 ?b ?s] =>
      specialize (L' b width 0%nat s) end.
    cbn [Nat.add] in L'.
    destruct L' as (pixels' & -> & Hpix').
    + exists pixels. split; [done|]. intros px py. rewrite Hpix.
      split; [by left | intros [H | H]; [done | lia]].
    + intros col vp' Hcol (pixels' & -> & Hpix').
      assert (Hskip : ~ bright data width col row ->
        forall px py, (px, py) ∈ pixels' <->
          ((px < width)%nat /\ (py < row)%nat /\ bright data width px py) \/
          ((px < S col)%nat /\ py = row /\ bright data width px py)).
      { intros Hdark px py. rewrite Hpix'. split.
        - intros [H | (? & ? & ?)]; [by left | right; split; [lia | done]].
        - intros [H | (Hlt & -> & Hb)]; [by left|].
          destruct (decide (px = col)) as [-> | Hne]; [done|].
          right. split; [lia | done]. }
      destruct (data !! ((row * width + col) * 4)%nat) as [v|] eqn:E.
      * destruct (Z.ltb_spec 128 v) as [Hv | Hv].
        -- exists (pixels' ++ [(col, row)]). split.
           ++ rewrite flatten_app. done.
           ++ intros px py. rewrite elem_of_app, Hpix', list_elem_of_singleton.
              split.
              ** intros [[H | (? & ? & ?)] | [= -> ->]].
                 { by left. }
                 { right. split; [lia | done]. }
                 right. split; [lia|]. split; [done|]. by exists v.
              ** intros [H | (Hlt & -> & Hb)]; [by left; left|].
                 destruct (decide (px = col)) as [-> | Hne]; [by right|].
                 left. right. split; [lia | done].
        -- exists pixels'. split; [done|]. apply Hskip.
           intros (v' & E' & Hv'). rewrite E in E'. injection E' as <-. lia.
      * exists pixels'. split; [done|]. apply Hskip.
        intros (v' & E' & Hv'). rewrite E in E'. done.
    + exists pixels'. split; [done|]. intros px py. rewrite Hpix'.
      split.
      * intros [(? & ? & ?) | (Hlt & -> & Hb)];
          (split; [done|]; split; [lia | done]).
      * intros (Hx & Hy & Hb).
        destruct (decide (py = row)) as [-> | Hne]; [by right|].
        left. split; [done|]. split; [lia | done].
Qed.

End ScanFacts.

Section PlacementFacts.

Import Sampler Pixels.

Lemma length_put (i : nat) (p : R * R * R) (positions : list R) :
  length (put i p positions) = length positions.
Proof. unfold put. by rewrite !length_insert. Qed.

Lemma point_at_put (i : nat) (p : R * R * R) (positions : list R) :
  (i * 3 + 3 <= length positions)%nat ->
  point_at (put i p positions) i = Some p.
Proof.
  intros H. unfold point_at, put. destruct p as [[a b] c]. cbn [fst snd].
  set (l1 := <[(i * 3)%nat := a]> positions).
  set (l2 := <[(i * 3 + 1)%nat := b]> l1).
  assert (H1 : length l1 = length positions) by apply length_insert.
  assert (H2 : length l2 = length positions)
    by (unfold l2; by rewrite length_insert).
  assert (Ea : <[(i * 3 + 2)%nat := c]> l2 !! (i * 3)%nat = Some a).
  { rewrite list_lookup_insert_ne by lia. unfold l2.
    rewrite list_lookup_insert_ne by lia.
    apply list_lookup_insert_eq. lia. }
  assert (Eb : <[(i * 3 + 2)%nat := c]> l2 !! (i * 3 + 1)%nat = Some b).
  { rewrite list_lookup_insert_ne by lia.
    apply list_lookup_insert_eq. lia. }
  assert (Ec : <[(i * 3 + 2)%nat := c]> l2 !! (i * 3 + 2)%nat = Some c).
  { apply list_lookup_insert_eq. lia. }
  by rewrite Ea, Eb, Ec.
Qed.

Lemma lookup_put_other (i j : nat) (p : R * R * R) (positions : list R) :
  (j < i * 3 \/ i * 3 + 3 <= j)%nat ->
  put i p positions !! j = positions !! j.
Proof. intros H. unfold put. by rewrite !list_lookup_insert_ne by lia. Qed.

Lemma point_at_ext (l1 l2 : list R) (i : nat) :
  (forall j, (i * 3 <= j < i * 3 + 3)%nat -> l1 !! j = l2 !! j) ->
  point_at l1 i = point_at l2 i.
Proof.
  intros H. unfold point_at.
  by rewrite (H (i * 3)%nat), (H (i * 3 + 1)%nat), (H (i * 3 + 2)%nat) by lia.
Qed.

(** A loop whose step [i] stores, for particle [i], a point computed from
    the next [d] draws: it consumes [d] draws per particle and leaves, for
    each particle of its range, the point of that particle's draws. *)
Lemma for_loop_put (body : nat -> list R -> Rand (list R)) (d : nat)
    (point : (nat -> unit_interval) -> nat -> R * R * R) :
  (forall i positions random k,
     body i positions random k
     = (put i (point random k) positions, (k + d)%nat)) ->
  forall (n start : nat) (positions : list R) random k,
    ((start + n) * 3 <= length positions)%nat ->
    exists positions',
      for_loop n start body positions random k
        = (positions', (k + d * n)%nat) /\
      length positions' = length positions /\
      (forall j, (j < start * 3 \/ (start + n) * 3 <= j)%nat ->
         positions' !! j = positions !! j) /\
      (forall i, (start <= i < start + n)%nat ->
         point_at positions' i
         = Some (point random (k + d * (i - start))%nat)).
Proof.
  intros Hbody. induction n as [|n IH]; intros start positions random k Hlen.
  - exists positions. split; [|split; [done|split; [done|intros; lia]]].
    cbn. f_equal. lia.
  - destruct (IH (S start) (put start (point random k) positions) random
                (k + d)%nat) as (positions' & El & Hlen' & Hout & Hin).
    { rewrite length_put. lia. }
    exists positions'. split; [|split; [|split]].
    + cbn [for_loop]. unfold mbind, Rand_bind. rewrite Hbody.
      cbv beta iota.
      transitivity (positions', (k + d + d * n)%nat); [exact El|].
      f_equal. lia.
    + by rewrite Hlen', length_put.
    + intros j Hj. rewrite Hout by lia. apply lookup_put_other. lia.
    + intros i Hi. destruct (decide (i = start)) as [-> | Hne].
      * rewrite Nat.sub_diag, Nat.mul_0_r, Nat.add_0_r.
        rewrite <- (point_at_put start (point random k) positions) by lia.
        apply point_at_ext. intros j Hj. apply Hout. lia.
      * rewrite Hin by lia. do 2 f_equal. nia.
Qed.

Lemma placeParticle_put validPixels width height i positions random k :
  placeParticle validPixels width height i positions random k
  = (put i (glyphPoint validPixels width height (random k) (random (S k)))
       positions, (k + 2)%nat).
Proof.
  unfold placeParticle, mbind, Rand_bind, mret, Rand_ret, Math_random.
  f_equal. lia.
Qed.

Lemma placeSpherePoint_put radius i positions random k :
  placeSpherePoint radius i positions random k
  = (put i (spherePoint radius (random k) (random (S k)) (random (S (S k))))
       positions, (k + 3)%nat).
Proof.
  unfold placeSpherePoint, mbind, Rand_bind, mret, Rand_ret, Math_random.
  f_equal. lia.
Qed.

(** Every particle of a buffer of [count] points has a point. *)
Lemma point_at_replicate (count i : nat) :
  (i < count)%nat ->
  point_at (replicate (count * 3) 0) i = Some (0, 0, 0).
Proof.
  intros Hi. unfold point_at.
  by rewrite !lookup_replicate_2 by lia.
Qed.

(** The cube root of a draw lies in the half-open unit interval. *)
Lemma Math_cbrt_unit (u : unit_interval) : 0 <= Math_cbrt u < 1.
Proof.
  destruct u as [u [H0 H1]]. cbn [unit_value]. unfold Math_cbrt.
  destruct (Rlt_dec 0 u) as [Hpos|]; [|destruct (Rlt_dec u 0); lra].
  unfold Rpower. split; [left; apply exp_pos|].
  rewrite <- exp_0. apply exp_increasing.
  assert (ln u < 0) by (rewrite <- ln_1; apply ln_increasing; lra).
  nra.
Qed.

(** A point of the sphere cloud is at distance [radius * cbrt u1] from the
    origin. *)
Lemma spherePoint_norm (radius u1 u2 u3 : R) :
  let '(a, b, c) := spherePoint radius u1 u2 u3 in
  a * a + b * b + c * c = (radius * Math_cbrt u1) * (radius * Math_cbrt u1).
Proof.
  unfold spherePoint, Math_sin, Math_cos.
  set (r := radius * Math_cbrt u1).
  set (phi := Math_acos (2 * u3 - 1)). set (theta := u2 * 2 * Math_PI).
  pose proof (sin2_cos2 phi) as Hp. pose proof (sin2_cos2 theta) as Ht.
  unfold Rsqr in Hp, Ht.
  replace (r * sin phi * cos theta * (r * sin phi * cos theta) +
           r * sin phi * sin theta * (r * sin phi * sin theta) +
           r * cos phi * (r * cos phi))
    with (r * r * ((sin phi * sin phi)
                   * (sin theta * sin theta + cos theta * cos theta)
                   + cos phi * cos phi)) by ring.
  rewrite Ht, Rmult_1_r, Hp. ring.
Qed.

End PlacementFacts.

Section SamplerExtras.

Import Sampler Pixels.

Lemma findWhitePixels_listed_iff (data : list Z) (width height px py : nat) :
  listed (findWhitePixels data width height) px py <->
  (px < width)%nat /\ (py < height)%nat /\ bright data width px py.
Proof.
  destruct (findWhitePixels_flatten data width height) as (pixels & -> & H).
  by rewrite listed_flatten.
Qed.

Lemma findWhitePixels_nonempty (data : list Z) (width height px py : nat) :
  (px < width)%nat -> (py < height)%nat -> bright data width px py ->
  findWhitePixels data width height <> [].
Proof.
  intros Hx Hy Hb E.
  assert (L : listed (findWhitePixels data width height) px py)
    by by apply findWhitePixels_listed_iff.
  rewrite E in L. by destruct L as (j & ? & _).
Qed.

Lemma INR_200 : INR 200 = 200.
Proof. rewrite INR_IZR_INZ. reflexivity. Qed.

(** With a pixel to draw from, the point a particle gets sits on a filled
    pixel of the canvas. *)
Lemma glyphPoint_on_pixel (data : list Z) (width height : nat)
    (u v : unit_interval) :
  findWhitePixels data width height <> [] ->
  exists px py,
    (px < width)%nat /\ (py < height)%nat /\ bright data width px py /\
    glyphPoint (findWhitePixels data width height) width height u v
    = ((INR px - INR width / 2) * 0.15,
       (- (INR py - INR height / 2)) * 0.15,
       (v - 0.5) * 2).
Proof.
  intros Hne. set (vp := findWhitePixels data width height) in *.
  destruct (findWhitePixels_pairs data width height) as [m Hm]. fold vp in Hm.
  assert (Hlen : length vp <> 0%nat) by (by destruct vp).
  destruct (pixelIndex_in_range vp m u Hm Hlen) as [[px Ex] [py Ey]].
  unfold glyphPoint. rewrite Ex, Ey. cbn [default].
  exists px, py.
  set (f := Math_floor (u * (INR (length vp) / 2))) in *.
  unfold index in Ex, Ey.
  destruct (Z.ltb_spec (f * 2) 0); [done|].
  destruct (Z.ltb_spec (f * 2 + 1) 0); [done|].
  assert (L : listed vp px py).
  { exists (Z.to_nat f).
    replace (2 * Z.to_nat f)%nat with (Z.to_nat (f * 2)) by lia.
    replace (Z.to_nat (f * 2) + 1)%nat with (Z.to_nat (f * 2 + 1)) by lia.
    done. }
  apply findWhitePixels_listed_iff in L as (Hx & Hy & Hb).
  done.
Qed.

(** The sampled branch of [samplePointsFromText]: two draws per particle,
    and particle [i] gets the point of draws [k + 2i] and [k + 2i + 1]. *)
Lemma samplePointsFromText_sampled
    (ctx : string -> R -> list Z) (text : string) (count : nat) (size : R)
    (random : nat -> unit_interval) (k : nat) :
  findWhitePixels (ctx text size) 200 200 <> [] ->
  (samplePointsFromText (Some ctx) text count size random k).2
    = (k + 2 * count)%nat /\
  forall i, (i < count)%nat ->
    point_at (samplePointsFromText (Some ctx) text count size random k).1 i
    = Some (glyphPoint (findWhitePixels (ctx text size) 200 200) 200 200
              (random (k + 2 * i)%nat) (random (S (k + 2 * i)))).
Proof.
  intros Hne. unfold samplePointsFromText.
  set (vp := findWhitePixels (ctx text size) 200 200) in *.
  destruct (Nat.eqb_spec (length vp) 0) as [E|_]; [by destruct vp|].
  destruct (for_loop_put (placeParticle vp 200 200) 2
              (fun random k => glyphPoint vp 200 200 (random k) (random (S k)))
              (placeParticle_put vp 200 200)
              count 0 (new_Float32Array (count * 3)) random k)
    as (positions' & -> & _ & _ & Hin).
  { rewrite length_new_Float32Array. lia. }
  split; [done|]. intros i Hi. cbn [fst]. rewrite Hin by lia.
  by rewrite Nat.sub_0_r.
Qed.

(** The loop of [generateSphereCloud]: three draws per point. *)
Lemma generateSphereCloud_points (count : nat) (radius : R)
    (random : nat -> unit_interval) (k : nat) :
  (generateSphereCloud count radius random k).2 = (k + 3 * count)%nat /\
  forall i, (i < count)%nat ->
    point_at (generateSphereCloud count radius random k).1 i
    = Some (spherePoint radius (random (k + 3 * i)%nat)
              (random (S (k + 3 * i))) (random (S (S (k + 3 * i))))).
Proof.
  unfold generateSphereCloud.
  destruct (for_loop_put (placeSpherePoint radius) 3
              (fun random k => spherePoint radius (random k) (random (S k))
                                 (random (S (S k))))
              (placeSpherePoint_put radius)
              count 0 (new_Float32Array (count * 3)) random k)
    as (positions' & -> & _ & _ & Hin).
  { rewrite length_new_Float32Array. lia. }
  split; [done|]. intros i Hi. cbn [fst]. rewrite Hin by lia.
  by rewrite Nat.sub_0_r.
Qed.

(** A point of the cloud lies in the ball of the given radius. *)
Lemma spherePoint_in_ball (radius : R) (u1 u2 u3 : unit_interval) :
  let '(a, b, c) := spherePoint radius u1 u2 u3 in
  a * a + b * b + c * c <= radius * radius /\
  (radius <> 0 -> a * a + b * b + c * c < radius * radius).
Proof.
  pose proof (spherePoint_norm radius u1 u2 u3) as Hn.
  destruct (spherePoint radius u1 u2 u3) as [[a b] c].
  rewrite Hn. pose proof (Math_cbrt_unit u1) as [H0 H1].
  set (c1 := Math_cbrt u1) in *.
  assert (Hc : c1 * c1 < 1) by nra.
  split; [nra|]. intros Hr.
  assert (0 < radius * radius) by nra. nra.
Qed.

(** Whatever the canvas answers, every point of a glyph formation lies in
    a fixed box. *)
Lemma samplePointsFromText_point_box
    (getContext : option (string -> R -> list Z)) (text : string)
    (count : nat) (size : R) (random : nat -> unit_interval) (k i : nat) :
  (i < count)%nat ->
  exists a b c,
    point_at (samplePointsFromText getContext text count size random k).1 i
      = Some (a, b, c) /\
    -15 <= a <= 14.85 /\ -14.85 <= b <= 15 /\ -1 <= c < 1.
Proof.
  intros Hi.
  assert (Hzero :
    point_at (new_Float32Array (count * 3)) i = Some (0, 0, 0))
    by by apply point_at_replicate.
  destruct getContext as [ctx|].
  - destruct (decide (findWhitePixels (ctx text size) 200 200 = []))
      as [E | Hne].
    + unfold samplePointsFromText. rewrite E. cbn [length Nat.eqb].
      exists 0, 0, 0. split; [exact Hzero | lra].
    + destruct (samplePointsFromText_sampled ctx text count size random k Hne)
        as [_ Hpts].
      rewrite (Hpts i Hi).
      destruct (glyphPoint_on_pixel (ctx text size) 200 200
                  (random (k + 2 * i)%nat) (random (S (k + 2 * i))) Hne)
        as (px & py & Hpx & Hpy & _ & ->).
      eexists _, _, _. split; [reflexivity|].
      rewrite INR_200.
      assert (0 <= INR px <= 199).
      { split; [apply pos_INR|].
        replace 199 with (INR 199) by (rewrite INR_IZR_INZ; reflexivity).
        apply le_INR. lia. }
      assert (0 <= INR py <= 199).
      { split; [apply pos_INR|].
        replace 199 with (INR 199) by (rewrite INR_IZR_INZ; reflexivity).
        apply le_INR. lia. }
      destruct (random (S (k + 2 * i))) as [v [? ?]]. cbn [unit_value].
      lra.
  - exists 0, 0, 0. split; [exact Hzero | lra].
Qed.

(** A property of the three coordinates of every point is a property of
    every number of the buffer. *)
Lemma point_at_all (l : list R) (count : nat) (Q : R -> Prop) :
  length l = (3 * count)%nat ->
  (forall i, (i < count)%nat ->
     exists a b c, point_at l i = Some (a, b, c) /\ Q a /\ Q b /\ Q c) ->
  forall j v, l !! j = Some v -> Q v.
Proof.
  intros Hlen Hpts j v Ej.
  pose proof (lookup_lt_Some _ _ _ Ej) as Hj.
  pose proof (Nat.div_mod_eq j 3) as Hdm.
  pose proof (Nat.mod_upper_bound j 3 ltac:(lia)) as Hr.
  destruct (Hpts (j / 3)%nat) as (a & b & c & Ep & Qa & Qb & Qc); [lia|].
  unfold point_at in Ep.
  destruct (l !! (j / 3 * 3)%nat) as [a'|] eqn:Ea; [|done].
  destruct (l !! (j / 3 * 3 + 1)%nat) as [b'|] eqn:Eb; [|done].
  destruct (l !! (j / 3 * 3 + 2)%nat) as [c'|] eqn:Ec; [|done].
  cbn in Ep. injection Ep as -> -> ->.
  destruct (j mod 3)%nat as [|[|[|?]]] eqn:Em; [| | |lia].
  - replace j with (j / 3 * 3)%nat in Ej by lia. congruence.
  - replace j with (j / 3 * 3 + 1)%nat in Ej by lia. congruence.
  - replace j with (j / 3 * 3 + 2)%nat in Ej by lia. congruence.
Qed.

(** Every number of a glyph formation lies between -15 and 15. *)
Lemma samplePointsFromText_within
    (getContext : option (string -> R -> list Z)) (text : string)
    (count : nat) (size : R) (random : nat -> unit_interval) (k j : nat)
    (v : R) :
  (samplePointsFromText getContext text count size random k).1 !! j = Some v ->
  -15 <= v <= 15.
Proof.
  apply (point_at_all _ count (fun v => -15 <= v <= 15)).
  - apply samplePointsFromText_length.
  - intros i Hi.
    destruct (samplePointsFromText_point_box getContext text count size
                random k i Hi) as (a & b & c & E & Ha & Hb & Hc).
    exists a, b, c. split; [done|]. lra.
Qed.

(** Every number of a sphere cloud of radius 8 lies between -8 and 8. *)
Lemma generateSphereCloud_within (count : nat)
    (random : nat -> unit_interval) (k j : nat) (v : R) :
  (generateSphereCloud count 8 random k).1 !! j = Some v -> -8 <= v <= 8.
Proof.
  apply (point_at_all _ count (fun v => -8 <= v <= 8)).
  - apply generateSphereCloud_length.
  - intros i Hi.
    destruct (generateSphereCloud_points count 8 random k) as [_ Hpts].
    rewrite (Hpts i Hi).
    pose proof (spherePoint_in_ball 8 (random (k + 3 * i)%nat)
                  (random (S (k + 3 * i))) (random (S (S (k + 3 * i))))) as H.
    destruct (spherePoint _ _ _ _) as [[a b] c]. destruct H as [H _].
    exists a, b, c. split; [done|]. repeat split; nra.
Qed.

(** The formations built at initialisation: the sphere within 8, the
    glyphs within 15 of the origin on every axis. *)
Lemma makeTargets_within getContext random k (g : GestureType) (j : nat)
    (v : R) :
  Spec.formation (Engine.makeTargets getContext random k).1 g !! j = Some v ->
  - Tracking.reach g <= v <= Tracking.reach g.
Proof.
  unfold Engine.makeTargets, mbind, Rand_bind, mret, Rand_ret.
  pose proof (generateSphereCloud_within Engine.PARTICLE_COUNT random k j v)
    as H0.
  destruct (generateSphereCloud _ _ random k) as [a0 k0].
  pose proof (samplePointsFromText_within getContext "生"
                Engine.PARTICLE_COUNT 140 random k0 j v) as H1.
  destruct (samplePointsFromText _ "生" _ _ random k0) as [a1 k1].
  pose proof (samplePointsFromText_within getContext "日"
                Engine.PARTICLE_COUNT 140 random k1 j v) as H2.
  destruct (samplePointsFromText _ "日" _ _ random k1) as [a2 k2].
  pose proof (samplePointsFromText_within getContext "快"
                Engine.PARTICLE_COUNT 140 random k2 j v) as H3.
  destruct (samplePointsFromText _ "快" _ _ random k2) as [a3 k3].
  pose proof (samplePointsFromText_within getContext "乐"
                Engine.PARTICLE_COUNT 140 random k3 j v) as H4.
  destruct (samplePointsFromText _ "乐" _ _ random k3) as [a4 k4].
  cbn [fst] in *.
  destruct g;
    cbn [Spec.formation Engine.sphere Engine.char1 Engine.char2
         Engine.char3 Engine.char4 Tracking.reach];
    intros E; auto.
Qed.

End SamplerExtras.

Section SamplerExtraTheorems.

Import Sampler Pixels.

(** X5. The scan of the canvas collects exactly the filled pixels: a pair
    [px, py] sits at an even offset of [validPixels] if and only if the
    pixel is inside the canvas and its red channel exceeds 128; so the list
    is empty exactly when no pixel of the canvas is filled, and its length
    is even. *)
Theorem findWhitePixels_exact (data : list Z) (width height : nat) :
  (forall px py,
     listed (findWhitePixels data width height) px py <->
     (px < width)%nat /\ (py < height)%nat /\ bright data width px py) /\
  (findWhitePixels data width height = [] <->
   forall px py, (px < width)%nat -> (py < height)%nat ->
     ~ bright data width px py) /\
  exists m, length (findWhitePixels data width height) = (2 * m)%nat.
Proof.
  split; [intros; apply findWhitePixels_listed_iff|].
  split; [|apply findWhitePixels_pairs].
  split.
  - intros E px py Hx Hy Hb.
    by apply (findWhitePixels_nonempty data width height px py).
  - intros Hdark. apply findWhitePixels_nil. intros px py v Hx Hy E.
    destruct (Z_le_gt_dec v 128) as [|Hv]; [done|].
    destruct (Hdark px py Hx Hy). exists v. split; [done | lia].
Qed.

(** X6. When the drawn glyph fills at least one pixel, sampling draws two
    random numbers per particle, and every particle lands on a filled
    pixel: its X and Y are the centred, scaled, Y-inverted coordinates
    [(px - 100) * 0.15] and [(100 - py) * 0.15] of a pixel whose red channel
    exceeds 128, and its Z lies between -1 and 1. *)
Theorem samplePointsFromText_on_glyph
    (ctx : string -> R -> list Z) (text : string) (count : nat) (size : R)
    (random : nat -> unit_interval) (k px0 py0 : nat) :
  (px0 < 200)%nat -> (py0 < 200)%nat ->
  bright (ctx text size) 200 px0 py0 ->
  (samplePointsFromText (Some ctx) text count size random k).2
    = (k + 2 * count)%nat /\
  forall i, (i < count)%nat ->
    exists px py z,
      (px < 200)%nat /\ (py < 200)%nat /\
      bright (ctx text size) 200 px py /\
      point_at (samplePointsFromText (Some ctx) text count size random k).1 i
      = Some ((INR px - 100) * 0.15, (100 - INR py) * 0.15, z) /\
      -1 <= z <= 1.
Proof.
  intros Hx Hy Hb.
  pose proof (findWhitePixels_nonempty _ _ _ _ _ Hx Hy Hb) as Hne.
  destruct (samplePointsFromText_sampled ctx text count size random k Hne)
    as [Hk Hpts].
  split; [done|]. intros i Hi. rewrite (Hpts i Hi).
  destruct (glyphPoint_on_pixel (ctx text size) 200 200
              (random (k + 2 * i)%nat) (random (S (k + 2 * i))) Hne)
    as (px & py & Hpx & Hpy & Hbr & ->).
  exists px, py, ((random (S (k + 2 * i)) - 0.5) * 2).
  split; [exact Hpx|]. split; [exact Hpy|]. split; [exact Hbr|].
  split; [|split].
  - rewrite INR_200. replace (200 / 2) with 100 by lra.
    by replace (- (INR py - 100) * 0.15) with ((100 - INR py) * 0.15) by lra.
  - destruct (random (S (k + 2 * i))) as [v [? ?]]. cbn. lra.
  - destruct (random (S (k + 2 * i))) as [v [? ?]]. cbn. lra.
Qed.

(** X7. Whatever the canvas answers (no context, no filled pixel, a
    glyph), every point of a glyph formation lies in a fixed box: X and Y
    between -15 and 15, Z between -1 and 1; so every number of the buffer
    lies between -15 and 15. *)
Theorem samplePointsFromText_box
    (getContext : option (string -> R -> list Z)) (text : string)
    (count : nat) (size : R) (random : nat -> unit_interval) (k : nat) :
  (forall i, (i < count)%nat ->
     exists a b c,
       point_at (samplePointsFromText getContext text count size random k).1 i
         = Some (a, b, c) /\
       -15 <= a <= 15 /\ -15 <= b <= 15 /\ -1 <= c <= 1) /\
  (forall j v,
     (samplePointsFromText getContext text count size random k).1 !! j
       = Some v ->
     -15 <= v <= 15).
Proof.
  assert (Hpts : forall i, (i < count)%nat ->
    exists a b c,
      point_at (samplePointsFromText getContext text count size random k).1 i
        = Some (a, b, c) /\
      -15 <= a <= 15 /\ -15 <= b <= 15 /\ -1 <= c <= 1).
  { intros i Hi.
    destruct (samplePointsFromText_point_box getContext text count size
                random k i Hi) as (a & b & c & E & Ha & Hb & Hc).
    exists a, b, c. split; [done|]. lra. }
  split; [exact Hpts|].
  apply (point_at_all _ count (fun v => -15 <= v <= 15)).
  - apply samplePointsFromText_length.
  - intros i Hi. destruct (Hpts i Hi) as (a & b & c & E & Ha & Hb & Hc).
    exists a, b, c. split; [done|]. lra.
Qed.

(** X8. [generateSphereCloud] draws three random numbers per point, in
    order: point [i] is computed from draws [k + 3i], [k + 3i + 1] and
    [k + 3i + 2] alone, so it is the same whatever the count and the other
    draws are; and with the radius 8 the component asks for, each of its
    coordinates lies between -8 and 8. *)
Theorem generateSphereCloud_point_draws (count : nat) (radius : R)
    (random : nat -> unit_interval) (k i : nat) :
  (i < count)%nat ->
  (generateSphereCloud count radius random k).2 = (k + 3 * count)%nat /\
  (forall count' random' k',
     (i < count')%nat ->
     (forall j, (j < 3)%nat ->
        random' (k' + 3 * i + j)%nat = random (k + 3 * i + j)%nat) ->
     point_at (generateSphereCloud count' radius random' k').1 i
     = point_at (generateSphereCloud count radius random k).1 i) /\
  exists a b c,
    point_at (generateSphereCloud count radius random k).1 i = Some (a, b, c) /\
    (radius = 8 -> -8 <= a <= 8 /\ -8 <= b <= 8 /\ -8 <= c <= 8).
Proof.
  intros Hi.
  destruct (generateSphereCloud_points count radius random k) as [Hk Hpts].
  split; [done|]. split.
  - intros count' random' k' Hi' Hdraws.
    destruct (generateSphereCloud_points count' radius random' k')
      as [_ Hpts'].
    rewrite (Hpts i Hi), (Hpts' i Hi').
    pose proof (Hdraws 0%nat ltac:(lia)) as E0.
    pose proof (Hdraws 1%nat ltac:(lia)) as E1.
    pose proof (Hdraws 2%nat ltac:(lia)) as E2.
    rewrite !Nat.add_0_r in E0.
    replace (k' + 3 * i + 1)%nat with (S (k' + 3 * i)) in E1 by lia.
    replace (k + 3 * i + 1)%nat with (S (k + 3 * i)) in E1 by lia.
    replace (k' + 3 * i + 2)%nat with (S (S (k' + 3 * i))) in E2 by lia.
    replace (k + 3 * i + 2)%nat with (S (S (k + 3 * i))) in E2 by lia.
    by rewrite E0, E1, E2.
  - rewrite (Hpts i Hi).
    pose proof (spherePoint_in_ball radius (random (k + 3 * i)%nat)
                  (random (S (k + 3 * i))) (random (S (S (k + 3 * i))))) as H.
    destruct (spherePoint _ _ _ _) as [[a b] c]. destruct H as [H _].
    exists a, b, c. split; [done|]. intros ->. repeat split; nra.
Qed.

End SamplerExtraTheorems.

(** * Further properties of the blending engine *)

Section TrackingFacts.

Import Engine Mounted.

(** The target of a tick stays within the sway of the formation point. *)
Lemma target_near_base (g : GestureType) (op t : R) (i axis : nat)
    (raw : R * R * R) (cx : R) :
  (axis < 3)%nat ->
  Rabs (coordinate axis (Spec.target g op t i raw cx)
        - Tracking.base g op (coordinate axis raw))
  <= Tracking.sway g axis.
Proof.
  intros Ha. destruct raw as [[rx ry] rz].
  pose proof (SIN_bound (t + INR i * 0.1)) as Hs1.
  pose proof (COS_bound (t * 0.5 + INR i * 0.05)) as Hc1.
  pose proof (SIN_bound (t * 2 + cx * 0.5)) as Hs2.
  destruct axis as [|[|[|?]]]; [| | |lia];
    destruct g;
    cbn [Spec.target coordinate fst snd Tracking.base Tracking.sway];
    apply Rabs_le; lra.
Qed.

(** One tick of a mounted component, seen at one coordinate: it becomes
    the blend of itself and a target within the sway of its formation
    point. *)
Lemma useFrame_coordinate (ps : ParticleSystem) (handState : HandState)
    (time : R) (h : gmap nat (list R)) (i axis : nat) :
  mounted ps h ->
  (i < PARTICLE_COUNT)%nat ->
  (axis < 3)%nat ->
  exists buf' ps' raw cur T,
    useFrame ps handState time h = Some (<[positions ps := buf']> h, ps') /\
    selectTarget (targets ps) (gesture handState) !! (i * 3 + axis)%nat
      = Some raw /\
    read h (positions ps) (i * 3 + axis) = Some cur /\
    buf' !! (i * 3 + axis)%nat = Some (Spec.blend T cur) /\
    Rabs (T - Tracking.base (gesture handState) (openness handState) raw)
      <= Tracking.sway (gesture handState) axis.
Proof.
  intros Hm Hi Ha.
  pose proof Hm as (_ & (buf & Ebuf & Hlen) & Htg).
  destruct (useFrame_slots ps handState time h buf Hm Ebuf)
    as (buf' & ps' & Euse & _ & _ & _ & _ & _ & Hslots).
  destruct (Hslots i Hi) as (nx & ny & nz & Es & E0 & E1 & E2).
  destruct (slot_Some handState time
              (selectTarget (targets ps) (gesture handState)) buf i)
    as (rx & ry & rz & cx & cy & cz & Hrx & Hry & Hrz & Hcx & Hcy & Hcz & Es');
    [rewrite Htg; lia | lia |].
  rewrite Es in Es'.
  pose proof (target_near_base (gesture handState) (openness handState) time i
                axis (rx, ry, rz) cx Ha) as Hnear.
  destruct (Spec.target (gesture handState) (openness handState) time i
              (rx, ry, rz) cx) as [[tx ty] tz].
  injection Es' as -> -> ->.
  unfold read. rewrite Ebuf. cbn [mbind option_bind].
  exists buf', ps'.
  destruct axis as [|[|[|?]]]; [| | |lia]; cbn [coordinate fst snd] in Hnear.
  - rewrite Nat.add_0_r. by exists rx, cx, tx.
  - by exists ry, cy, ty.
  - by exists rz, cz, tz.
Qed.

End TrackingFacts.

Section DriverFacts.

Import Engine Mounted Driver.

(** The component a completed tick leaves behind. *)
Lemma useFrame_component (ps ps' : ParticleSystem) (handState : HandState)
    (time : R) (h h' : gmap nat (list R)) (current : Points) :
  pointsRef ps = Some current ->
  useFrame ps handState time h = Some (h', ps') ->
  targets ps' = targets ps /\
  positions ps' = positions ps /\
  velocities ps' = velocities ps /\
  pointsRef ps' = Some
    {| geometry_attributes_position_array :=
         geometry_attributes_position_array current;
       geometry_attributes_position_needsUpdate := true;
       rotation_x :=
         MathUtils_lerp (rotation_x current) (y (position handState) * 0.2) 0.1;
       rotation_y :=
         MathUtils_lerp (rotation_y current) (x (position handState) * 0.2) 0.1
    |}.
Proof.
  intros Ecur. unfold useFrame. rewrite Ecur. cbv zeta.
  destruct (for_loop _ _ _ _) as [h2|]; [|done].
  cbn [mbind option_bind]. by intros [= <- <-].
Qed.

(** Ticks under one signal are the render loop with a constant signal. *)
Lemma ticks_animate (handState : HandState) (clock : nat -> R) (n : nat)
    (ps : ParticleSystem) (h : gmap nat (list R)) :
  ticks handState clock n ps h = animate (fun _ => handState) clock n ps h.
Proof. induction n as [|n IH]; [done|]. cbn. by rewrite IH. Qed.

(** An invariant of the render loop of a mounted component.  The loop never
    fails; the component stays mounted on the same arrays and formations;
    no array but [positions] is written; a property that every tick
    carries over holds after every number of ticks. *)
Lemma animate_invariant (signal : nat -> HandState) (clock : nat -> R)
    (ps : ParticleSystem) (h : gmap nat (list R))
    (Inv : nat -> gmap nat (list R) -> ParticleSystem -> Prop) :
  mounted ps h ->
  Inv 0%nat h ps ->
  (forall n h1 ps1 h2 ps2,
     mounted ps1 h1 ->
     targets ps1 = targets ps ->
     positions ps1 = positions ps ->
     Inv n h1 ps1 ->
     useFrame ps1 (signal n) (clock n) h1 = Some (h2, ps2) ->
     Inv (S n) h2 ps2) ->
  forall n, exists h_n ps_n,
    animate signal clock n ps h = Some (h_n, ps_n) /\
    mounted ps_n h_n /\
    targets ps_n = targets ps /\
    positions ps_n = positions ps /\
    (forall r, r <> positions ps -> h_n !! r = h !! r) /\
    Inv n h_n ps_n.
Proof.
  intros Hm H0 Hstep. induction n as [|n IH].
  - exists h, ps. by repeat (split; [done|]).
  - destruct IH as (h1 & ps1 & Ea & Hm1 & Etg & Epos & Hframe & Hinv).
    pose proof Hm1 as (_ & (buf & Ebuf & _) & _).
    destruct (useFrame_slots ps1 (signal n) (clock n) h1 buf Hm1 Ebuf)
      as (buf' & ps' & Euse & _ & Hm' & Epos' & Etg' & _ & _).
    exists (<[positions ps1 := buf']> h1), ps'.
    split; [|split; [|split; [|split; [|split]]]].
    + cbn [animate]. rewrite Ea. cbn [mbind option_bind]. exact Euse.
    + exact Hm'.
    + congruence.
    + congruence.
    + intros r Hr. rewrite Epos, lookup_insert_ne by done. by apply Hframe.
    + exact (Hstep n h1 ps1 _ _ Hm1 Etg Epos Hinv Euse).
Qed.

(** The same coordinate of the position buffer, tick after tick. *)
Lemma animate_coordinate (signal : nat -> HandState) (clock : nat -> R)
    (ps : ParticleSystem) (h : gmap nat (list R)) (i axis : nat)
    (P : nat -> R -> Prop) (c0 : R) :
  mounted ps h ->
  (i < PARTICLE_COUNT)%nat ->
  (axis < 3)%nat ->
  read h (positions ps) (i * 3 + axis) = Some c0 ->
  P 0%nat c0 ->
  (forall n raw cur T,
     selectTarget (targets ps) (gesture (signal n)) !! (i * 3 + axis)%nat
       = Some raw ->
     Rabs (T - Tracking.base (gesture (signal n)) (openness (signal n)) raw)
       <= Tracking.sway (gesture (signal n)) axis ->
     P n cur -> P (S n) (Spec.blend T cur)) ->
  forall n, exists h_n ps_n c_n,
    animate signal clock n ps h = Some (h_n, ps_n) /\
    read h_n (positions ps) (i * 3 + axis) = Some c_n /\
    P n c_n.
Proof.
  intros Hm Hi Ha Hc0 H0 Hstep n.
  destruct (animate_invariant signal clock ps h
    (fun n h1 ps1 => exists c, read h1 (positions ps) (i * 3 + axis) = Some c /\
                               P n c) Hm) with (n := n)
    as (h_n & ps_n & Ea & _ & _ & _ & _ & (c & Ec & Hc)).
  - by exists c0.
  - intros m h1 ps1 h2 ps2 Hm1 Etg Epos (c & Ec & Hc) Euse.
    destruct (useFrame_coordinate ps1 (signal m) (clock m) h1 i axis Hm1 Hi Ha)
      as (buf' & ps' & raw & cur & T & Euse' & Eraw & Ecur & Enew & Hnear).
    rewrite Euse' in Euse. injection Euse as <- <-.
    rewrite Etg in Eraw. rewrite Epos in *.
    assert (cur = c) as -> by congruence.
    exists (Spec.blend T c). split; [by rewrite read_insert|].
    by eapply Hstep.
  - by exists h_n, ps_n, c.
Qed.

End DriverFacts.

Section EngineExtraFacts.

Import Engine Mounted Driver.

(** A blend step lands between the coordinate and the target. *)
Lemma blend_between (T c : R) :
  Rmin c T <= Spec.blend T c <= Rmax c T.
Proof.
  unfold Spec.blend, Rmin, Rmax. destruct (Rle_dec c T); lra.
Qed.

(** So do all the steps of a run toward one target. *)
Lemma blend_iter_between (T c0 : R) (n : nat) :
  Rmin c0 T <= Nat.iter n (Spec.blend T) c0 <= Rmax c0 T.
Proof.
  induction n as [|n IH].
  - cbn [Nat.iter nat_rect]. unfold Rmin, Rmax. destruct (Rle_dec c0 T); lra.
  - rewrite Nat.iter_succ.
    pose proof (blend_between T (Nat.iter n (Spec.blend T) c0)) as H.
    revert IH H. unfold Rmin, Rmax.
    destruct (Rle_dec c0 T), (Rle_dec (Nat.iter n (Spec.blend T) c0) T); lra.
Qed.

End EngineExtraFacts.

Section EngineExtraTheorems.

Import Engine Mounted Driver.

(** X9. Once mounted, the render loop never fails, whatever signals and
    times the ticks run under: after any number of ticks the component is
    still mounted on the same [positions] array, with the same formations
    and [velocities]; the array keeps its [3 * PARTICLE_COUNT] numbers; and
    no other array of the store has been written. *)
Theorem animate_runs (signal : nat -> HandState) (clock : nat -> R)
    (ps : ParticleSystem) (h : gmap nat (list R)) (n : nat) :
  mounted ps h ->
  exists h_n ps_n buf_n,
    animate signal clock n ps h = Some (h_n, ps_n) /\
    mounted ps_n h_n /\
    targets ps_n = targets ps /\
    positions ps_n = positions ps /\
    velocities ps_n = velocities ps /\
    h_n !! positions ps = Some buf_n /\
    length buf_n = (3 * PARTICLE_COUNT)%nat /\
    forall r, r <> positions ps -> h_n !! r = h !! r.
Proof.
  intros Hm.
  destruct (animate_invariant signal clock ps h
              (fun _ _ ps1 => velocities ps1 = velocities ps) Hm eq_refl)
    with (n := n) as (h_n & ps_n & Ea & Hm_n & Etg & Epos & Hframe & Evel).
  - intros m h1 ps1 h2 ps2 Hm1 _ _ Evel Euse.
    destruct Hm1 as ((current & Ecur & _) & _).
    destruct (useFrame_component _ _ _ _ _ _ _ Ecur Euse) as (_ & _ & -> & _).
    done.
  - pose proof Hm_n as (_ & (buf & Ebuf & Hlen) & _).
    rewrite Epos in Ebuf. by exists h_n, ps_n, buf.
Qed.

(** X10. Before the component is mounted the render loop does nothing:
    after any number of ticks the store and the component are what they
    were. *)
Theorem animate_not_mounted (signal : nat -> HandState) (clock : nat -> R)
    (ps : ParticleSystem) (h : gmap nat (list R)) (n : nat) :
  pointsRef ps = None ->
  animate signal clock n ps h = Some (h, ps).
Proof.
  intros E. induction n as [|n IH]; [done|].
  cbn [animate]. rewrite IH. cbn [mbind option_bind].
  by apply useFrame_not_ready.
Qed.

(** X11. While a glyph is held, the X and the Z of a particle approach
    their glyph coordinate without overshooting: each tick leaves the
    coordinate between where it was and the glyph coordinate, so its
    distance to the glyph coordinate never grows, it stays between its
    starting value and the glyph coordinate, and once on the glyph
    coordinate it stays there. *)
Theorem ticks_no_overshoot (ps : ParticleSystem) (handState : HandState)
    (clock : nat -> R) (h : gmap nat (list R)) (i axis : nat) (raw c0 : R)
    (n : nat) :
  mounted ps h ->
  gesture handState <> NONE ->
  (i < PARTICLE_COUNT)%nat ->
  axis = 0%nat \/ axis = 2%nat ->
  Spec.formation (targets ps) (gesture handState) !! (i * 3 + axis)%nat
    = Some raw ->
  read h (positions ps) (i * 3 + axis) = Some c0 ->
  exists h_n ps_n c_n h' ps' c',
    ticks handState clock n ps h = Some (h_n, ps_n) /\
    read h_n (positions ps) (i * 3 + axis) = Some c_n /\
    ticks handState clock (S n) ps h = Some (h', ps') /\
    read h' (positions ps) (i * 3 + axis) = Some c' /\
    Rmin c_n raw <= c' <= Rmax c_n raw /\
    Rabs (c' - raw) <= Rabs (c_n - raw) /\
    Rmin c0 raw <= c_n <= Rmax c0 raw /\
    (c_n = raw -> c' = raw).
Proof.
  intros Hm Hg Hi Ha Eraw Ec0.
  rewrite <- selectTarget_formation in Eraw.
  destruct (ticks_unadjusted ps handState clock h i axis raw c0
              Hm Hg Hi Ha Eraw Ec0 n) as (h_n & ps_n & Et & _ & _ & _ & Hr).
  destruct (ticks_unadjusted ps handState clock h i axis raw c0
              Hm Hg Hi Ha Eraw Ec0 (S n)) as (h' & ps' & Et' & _ & _ & _ & Hr').
  rewrite Nat.iter_succ in Hr'.
  set (c_n := Nat.iter n (Spec.blend raw) c0) in *.
  exists h_n, ps_n, c_n, h', ps', (Spec.blend raw c_n).
  split; [exact Et|]. split; [exact Hr|].
  split; [exact Et'|]. split; [exact Hr'|].
  pose proof (blend_between raw c_n) as Hb.
  pose proof (blend_iter_between raw c0 n) as Hn. fold c_n in Hn.
  split; [exact Hb|]. split; [|split; [exact Hn|]].
  - revert Hb. unfold Rmin, Rmax, Rabs.
    destruct (Rle_dec c_n raw), (Rcase_abs (Spec.blend raw c_n - raw)),
      (Rcase_abs (c_n - raw)); lra.
  - intros ->. unfold Spec.blend. lra.
Qed.

(** X12. The rotation of the point group depends on the hand position
    only: after [n] ticks of a mounted component it is the rotation eased
    tick by tick toward [(position.y * 0.2, position.x * 0.2)], whatever
    gestures, opennesses, clock readings and particle coordinates the ticks
    saw, and two runs of signals with the same hand positions turn the group
    alike; the position attribute stays the same array and is flagged for
    upload from the first tick on. *)
Theorem animate_rotation (signal : nat -> HandState) (clock : nat -> R)
    (ps : ParticleSystem) (h : gmap nat (list R)) (current : Points)
    (n : nat) :
  mounted ps h ->
  pointsRef ps = Some current ->
  (exists h_n ps_n current_n,
     animate signal clock n ps h = Some (h_n, ps_n) /\
     pointsRef ps_n = Some current_n /\
     (rotation_x current_n, rotation_y current_n)
       = Turning.rotation signal (rotation_x current, rotation_y current) n /\
     geometry_attributes_position_array current_n
       = geometry_attributes_position_array current /\
     ((0 < n)%nat ->
      geometry_attributes_position_needsUpdate current_n = true)) /\
  (forall signal' r0,
     (forall j, (j < n)%nat -> position (signal' j) = position (signal j)) ->
     Turning.rotation signal' r0 n = Turning.rotation signal r0 n).
Proof.
  intros Hm Ecur. split.
  - destruct (animate_invariant signal clock ps h
      (fun n _ ps1 => exists cur,
         pointsRef ps1 = Some cur /\
         (rotation_x cur, rotation_y cur)
           = Turning.rotation signal (rotation_x current, rotation_y current)
               n /\
         geometry_attributes_position_array cur
           = geometry_attributes_position_array current /\
         ((0 < n)%nat -> geometry_attributes_position_needsUpdate cur = true))
      Hm) with (n := n) as (h_n & ps_n & Ea & _ & _ & _ & _ & Hinv).
    + exists current. split; [done|]. split; [done|]. split; [done|]. lia.
    + intros m h1 ps1 h2 ps2 _ _ _ (cur & Ec & Hrot & Harr & _) Euse.
      destruct (useFrame_component _ _ _ _ _ _ _ Ec Euse) as (_ & _ & _ & ->).
      eexists. split; [done|].
      cbn [rotation_x rotation_y geometry_attributes_position_array
           geometry_attributes_position_needsUpdate Turning.rotation].
      rewrite <- Hrot. cbn [fst snd]. by repeat split.
    + destruct Hinv as (cur & Hinv). by exists h_n, ps_n, cur.
  - intros signal' r0. clear Hm Ecur. induction n as [|n IH]; intros Hpos.
    + reflexivity.
    + cbn [Turning.rotation]. rewrite IH by (intros j Hj; apply Hpos; lia).
      by rewrite (Hpos n) by lia.
Qed.

End EngineExtraTheorems.

Section StartFacts.

Import Engine Mounted Driver.

Lemma mount_positions (ps : ParticleSystem) :
  positions (mount ps) = positions ps.
Proof. reflexivity. Qed.

Lemma render_targets getContext random k :
  targets (mount (render getContext random k).1.2)
  = (makeTargets getContext random k).1.
Proof.
  unfold render, mbind, Rand_bind, mret, Rand_ret.
  by destruct (makeTargets getContext random k) as [tg k'].
Qed.

Lemma makeTargets_sphere getContext random k :
  sphere (makeTargets getContext random k).1
  = (Sampler.generateSphereCloud PARTICLE_COUNT 8 random k).1.
Proof.
  unfold makeTargets, mbind, Rand_bind, mret, Rand_ret.
  destruct (Sampler.generateSphereCloud _ _ random k) as [a0 k0].
  destruct (Sampler.samplePointsFromText _ "生" _ _ random k0) as [a1 k1].
  destruct (Sampler.samplePointsFromText _ "日" _ _ random k1) as [a2 k2].
  destruct (Sampler.samplePointsFromText _ "快" _ _ random k2) as [a3 k3].
  by destruct (Sampler.samplePointsFromText _ "乐" _ _ random k3) as [a4 k4].
Qed.

(** What the first render leaves in the store. *)
Lemma render_store getContext random k :
  let ps := (render getContext random k).1.2 in
  let h := (render getContext random k).1.1 in
  pointsRef ps = None /\
  positions ps <> velocities ps /\
  h !! positions ps = Some (sphere (makeTargets getContext random k).1) /\
  h !! velocities ps = Some (replicate (PARTICLE_COUNT * 3) 0).
Proof.
  unfold render, mbind, Rand_bind, mret, Rand_ret.
  destruct (makeTargets getContext random k) as [tg k'].
  cbv zeta. cbn [fst snd pointsRef positions velocities].
  split; [done|]. split; [done|]. split.
  - by rewrite lookup_insert_ne, lookup_insert_eq.
  - by rewrite lookup_insert_eq.
Qed.

Lemma Rabs_le_bounds (a b : R) : Rabs a <= b -> - b <= a <= b.
Proof. unfold Rabs. destruct (Rcase_abs a); lra. Qed.

(** A target near a formation point of the initial formations, under a
    signal whose openness is in range, lies within 22.2 of the origin. *)
Lemma target_in_box (g : GestureType) (op raw T : R) (axis : nat) :
  0 <= op <= 1.5 ->
  - Tracking.reach g <= raw <= Tracking.reach g ->
  Rabs (T - Tracking.base g op raw) <= Tracking.sway g axis ->
  -22.2 <= T <= 22.2.
Proof.
  intros Hop Hraw Hnear.
  apply Rabs_le_bounds in Hnear.
  destruct g;
    [assert (-22 <= raw * (0.5 + op * 1.5) <= 22)
       by (cbn [Tracking.reach] in Hraw; split; nra)|..];
    destruct axis as [|[|?]];
    cbn [Tracking.base Tracking.sway Tracking.reach] in *; lra.
Qed.

Lemma blend_in_box (T c lo hi : R) :
  lo <= T <= hi -> lo <= c <= hi -> lo <= Spec.blend T c <= hi.
Proof. unfold Spec.blend. lra. Qed.

End StartFacts.

Section EndToEnd.

Import Engine Mounted Driver.

(** X13. The first render seeds the particle cloud with the sphere
    formation: nothing is mounted yet, [positions] and [velocities] are
    distinct arrays, [velocities] is all zero, [positions] is a copy of the
    sphere formation, and every coordinate of every particle starts between
    -8 and 8. *)
Theorem render_seeds_sphere
    (getContext : option (string -> R -> list Z))
    (random : nat -> unit_interval) (k i : nat) :
  (i < PARTICLE_COUNT)%nat ->
  pointsRef (render getContext random k).1.2 = None /\
  positions (render getContext random k).1.2
    <> velocities (render getContext random k).1.2 /\
  (render getContext random k).1.1
    !! velocities (render getContext random k).1.2
    = Some (replicate (PARTICLE_COUNT * 3) 0) /\
  exists buf a b c,
    (render getContext random k).1.1
      !! positions (render getContext random k).1.2 = Some buf /\
    buf = sphere (targets (mount (render getContext random k).1.2)) /\
    Pixels.point_at buf i = Some (a, b, c) /\
    -8 <= a <= 8 /\ -8 <= b <= 8 /\ -8 <= c <= 8.
Proof.
  intros Hi.
  destruct (render_store getContext random k) as (E1 & E2 & E3 & E4).
  split; [done|]. split; [done|]. split; [done|].
  rewrite render_targets.
  exists (sphere (makeTargets getContext random k).1).
  rewrite makeTargets_sphere in *.
  destruct (generateSphereCloud_points PARTICLE_COUNT 8 random k) as [_ Hpts].
  pose proof (spherePoint_in_ball 8 (random (k + 3 * i)%nat)
                (random (S (k + 3 * i))) (random (S (S (k + 3 * i))))) as H.
  rewrite (Hpts i Hi).
  destruct (Pixels.spherePoint _ _ _ _) as [[a b] c]. destruct H as [H _].
  exists a, b, c. split; [exact E3|]. split; [reflexivity|].
  split; [reflexivity|]. repeat split; nra.
Qed.

(** X14. From the first render on, whatever the canvas and the random
    draws gave, whatever frames the detection loop has gone through by each
    tick and whatever the clock reads, the render loop never fails and
    every coordinate of every particle stays between -22.2 and 22.2. *)
Theorem particles_stay_in_box
    (getContext : option (string -> R -> list Z))
    (random : nat -> unit_interval) (k : nat)
    (frames : nat -> list (bool * Classifier.HandLandmarkerResult))
    (clock : nat -> R) (n : nat) :
  exists h_n ps_n,
    animate (fun j => detections (frames j) Classifier.initialHandState)
      clock n (mount (render getContext random k).1.2)
      (render getContext random k).1.1
    = Some (h_n, ps_n) /\
    forall j, (j < 3 * PARTICLE_COUNT)%nat ->
      exists c, read h_n (positions ps_n) j = Some c /\ -22.2 <= c <= 22.2.
Proof.
  set (ps := mount (render getContext random k).1.2).
  set (h := (render getContext random k).1.1).
  set (signal := fun j => detections (frames j) Classifier.initialHandState).
  pose proof (render_mounted getContext random k) as Hm. fold ps h in Hm.
  assert (Hop : forall m, 0 <= openness (signal m) <= 1.5).
  { intros m. apply detections_range. cbn. lra. }
  assert (Htg : forall g j v,
    selectTarget (targets ps) g !! j = Some v ->
    - Tracking.reach g <= v <= Tracking.reach g).
  { intros g j v. unfold ps. rewrite render_targets, selectTarget_formation.
    apply makeTargets_within. }
  destruct (animate_invariant signal clock ps h
    (fun _ h1 _ => forall j, (j < 3 * PARTICLE_COUNT)%nat ->
       exists c, read h1 (positions ps) j = Some c /\ -22.2 <= c <= 22.2)
    Hm) with (n := n) as (h_n & ps_n & Ea & _ & _ & Epos & _ & Hinv).
  - intros j Hj.
    pose proof Hm as (_ & (buf & Ebuf & Hlen) & _).
    destruct (lookup_lt_is_Some_2 buf j) as [c Ec]; [lia|].
    exists c. unfold read. rewrite Ebuf. split; [done|].
    destruct (render_store getContext random k) as (_ & _ & E3 & _).
    unfold ps, h in Ebuf. rewrite mount_positions, E3 in Ebuf.
    assert (Heq : sphere (makeTargets getContext random k).1 = buf)
      by congruence.
    rewrite <- Heq in Ec.
    pose proof (makeTargets_within getContext random k NONE j c) as Hb.
    cbn [Tracking.reach Spec.formation] in Hb. specialize (Hb Ec). lra.
  - intros m h1 ps1 h2 ps2 Hm1 Etg Epos Hinv Euse j Hj.
    pose proof (Nat.div_mod_eq j 3) as Hdm.
    pose proof (Nat.mod_upper_bound j 3 ltac:(lia)) as Hr.
    destruct (useFrame_coordinate ps1 (signal m) (clock m) h1
                (j / 3) (j mod 3)) as
      (buf' & ps' & raw & cur & T & Euse' & Eraw & Ecur & Enew & Hnear);
      [done | lia | done |].
    rewrite Euse' in Euse. injection Euse as <- <-.
    replace (j / 3 * 3 + j mod 3)%nat with j in * by lia.
    rewrite Etg in Eraw. rewrite Epos in *.
    destruct (Hinv j Hj) as (c & Ec & Hc).
    assert (cur = c) as -> by congruence.
    exists (Spec.blend T c). split; [by rewrite read_insert|].
    apply blend_in_box; [|done].
    apply (target_in_box (gesture (signal m)) (openness (signal m)) raw T
             (j mod 3)); [apply Hop | by eapply Htg | done].
  - exists h_n, ps_n. split; [done|]. by rewrite Epos.
Qed.

End EndToEnd.

(** * What a tick reads *)

Section ReadsFacts.

Import Classifier Engine Mounted Driver.

Lemma for_loop_option_ext {St : Type} (body1 body2 : nat -> St -> option St) :
  (forall i s, body1 i s = body2 i s) ->
  forall n start s, for_loop n start body1 s = for_loop n start body2 s.
Proof.
  intros H. induction n as [|n IH]; intros start s; [done|].
  cbn [for_loop]. rewrite H. destruct (body2 start s) as [s'|]; [|done].
  cbn [mbind option_bind]. apply IH.
Qed.

(** The loop body looks at the gesture, and at the openness in free mode
    only. *)
Lemma particle_reads_signal (hs1 hs2 : HandState) (time : R)
    (targetPositions : list R) (positions currentPositions : ref) (i : nat)
    (h : gmap nat (list R)) :
  gesture hs1 = gesture hs2 ->
  (gesture hs1 = NONE -> openness hs1 = openness hs2) ->
  particle hs1 time targetPositions positions currentPositions i h
  = particle hs2 time targetPositions positions currentPositions i h.
Proof.
  intros Hg Ho. unfold particle, adjustTarget. rewrite <- Hg.
  destruct (decide (gesture hs1 = NONE)) as [E|]; [|done].
  by rewrite (Ho E).
Qed.

Lemma detections_app (pre post : list (bool * HandLandmarkerResult))
    (bad : bool * HandLandmarkerResult) (s : HandState) :
  (forall s', detect bad.1 bad.2 s' = Throw TypeError) ->
  detections (pre ++ bad :: post) s = detections pre s.
Proof.
  intros Hbad. revert s.
  induction pre as [|[ready results] pre IH]; intros s.
  - destruct bad as [ready results]. cbn [app detections].
    specialize (Hbad s). cbn [fst snd] in Hbad. by rewrite Hbad.
  - cbn [app detections].
    destruct (detect ready results s) as [s'|]; [apply IH | done].
Qed.

End ReadsFacts.

Section ReadsTheorems.

Import Classifier Engine Mounted Driver.

(** X15. A frame with a hand of fewer than 21 landmarks ends the detection
    loop: the signal stays what the frames before it made it, and no later
    frame changes it. *)
Theorem detections_end_at_short_frame
    (pre post : list (bool * HandLandmarkerResult))
    (lms : list Landmark) (others : list (list Landmark)) (s : HandState) :
  (length lms < 21)%nat ->
  detections (pre ++ (true, mkResult (Some (lms :: others))) :: post) s
  = detections pre s.
Proof.
  intros Hlen. apply detections_app. intros s'. cbn [fst snd detect landmarks].
  by apply analyzeGesture_Throw.
Qed.

(** X16. The particle buffer a tick leaves depends on the gesture and, in
    free mode only, on the openness: the hand position never moves a
    particle, and under a glyph the openness does not either. *)
Theorem useFrame_reads_signal (ps : ParticleSystem) (hs1 hs2 : HandState)
    (time : R) (h : gmap nat (list R)) :
  gesture hs1 = gesture hs2 ->
  (gesture hs1 = NONE -> openness hs1 = openness hs2) ->
  fst <$> useFrame ps hs1 time h = fst <$> useFrame ps hs2 time h.
Proof.
  intros Hg Ho. unfold useFrame.
  destruct (pointsRef ps) as [current|]; [|done]. cbv zeta.
  rewrite <- Hg.
  rewrite (for_loop_option_ext
             (particle hs1 time (selectTarget (targets ps) (gesture hs1))
                (positions ps) (geometry_attributes_position_array current))
             (particle hs2 time (selectTarget (targets ps) (gesture hs1))
                (positions ps) (geometry_attributes_position_array current))).
  - by destruct (for_loop _ _ _ _).
  - intros i s. by apply particle_reads_signal.
Qed.

(** X17. Particles do not interact: where a particle is after a tick
    depends on where that particle was, not on the others.  Two stores of a
    mounted component that agree on the three coordinates of particle [i]
    agree on them after the tick. *)
Theorem useFrame_particles_independent (ps : ParticleSystem)
    (handState : HandState) (time : R) (h1 h2 : gmap nat (list R)) (i : nat) :
  mounted ps h1 ->
  mounted ps h2 ->
  (i < PARTICLE_COUNT)%nat ->
  (forall axis, (axis < 3)%nat ->
     read h1 (positions ps) (i * 3 + axis)
     = read h2 (positions ps) (i * 3 + axis)) ->
  exists h1' h2' ps',
    useFrame ps handState time h1 = Some (h1', ps') /\
    useFrame ps handState time h2 = Some (h2', ps') /\
    forall axis, (axis < 3)%nat ->
      read h1' (positions ps) (i * 3 + axis)
      = read h2' (positions ps) (i * 3 + axis).
Proof.
  intros Hm1 Hm2 Hi Hagree.
  pose proof Hm1 as ((current & Ecur & _) & (buf1 & Ebuf1 & Hlen1) & _).
  pose proof Hm2 as (_ & (buf2 & Ebuf2 & Hlen2) & _).
  destruct (useFrame_slots ps handState time h1 buf1 Hm1 Ebuf1)
    as (buf1' & ps1' & Euse1 & _ & _ & _ & _ & _ & Hslots1).
  destruct (useFrame_slots ps handState time h2 buf2 Hm2 Ebuf2)
    as (buf2' & ps2' & Euse2 & _ & _ & _ & _ & _ & Hslots2).
  destruct (useFrame_component _ _ _ _ _ _ _ Ecur Euse1)
    as (Et1 & Ep1 & Ev1 & Er1).
  destruct (useFrame_component _ _ _ _ _ _ _ Ecur Euse2)
    as (Et2 & Ep2 & Ev2 & Er2).
  assert (ps1' = ps2') as <-.
  { destruct ps1', ps2'. cbn in *. congruence. }
  exists (<[positions ps := buf1']> h1), (<[positions ps := buf2']> h2), ps1'.
  split; [done|]. split; [done|].
  destruct (Hslots1 i Hi) as (nx & ny & nz & Es1 & A0 & A1 & A2).
  destruct (Hslots2 i Hi) as (mx & my & mz & Es2 & B0 & B1 & B2).
  assert (Eslot : OneBuffer.slot handState time
                    (selectTarget (targets ps) (gesture handState)) buf1 i
                  = OneBuffer.slot handState time
                    (selectTarget (targets ps) (gesture handState)) buf2 i).
  { apply slot_ext. intros j Hj.
    specialize (Hagree (j - i * 3)%nat ltac:(lia)).
    unfold read in Hagree. rewrite Ebuf1, Ebuf2 in Hagree.
    cbn [mbind option_bind] in Hagree.
    by replace (i * 3 + (j - i * 3))%nat with j in Hagree by lia. }
  rewrite Es1, Es2 in Eslot. injection Eslot as <- <- <-.
  intros axis Ha. rewrite !read_insert.
  destruct axis as [|[|[|?]]]; [| | |lia].
  - rewrite Nat.add_0_r. congruence.
  - congruence.
  - congruence.
Qed.

End ReadsTheorems.

(** * The further theorems at sample inputs *)

Section ExtraWitnesses.

Import Classifier Engine Mounted Driver.

Lemma analyzeGesture_signal_range_witness :
  0 <= openness (stateAfter initialHandState (analyzeGesture Samples.spread))
    <= 1.5 /\
  x (position (stateAfter initialHandState (analyzeGesture Samples.spread)))
    = 1 - 2 * x Samples.mid /\
  y (position (stateAfter initialHandState (analyzeGesture Samples.spread)))
    = 1 - 2 * y Samples.mid /\
  -1 <= x (position (stateAfter initialHandState
                       (analyzeGesture Samples.spread))) <= 1 /\
  -1 <= y (position (stateAfter initialHandState
                       (analyzeGesture Samples.spread))) <= 1.
Proof.
  apply (analyzeGesture_signal_range Samples.spread _ Samples.mid).
  - reflexivity.
  - reflexivity.
  - cbn. lra.
  - cbn. lra.
Defined.

Lemma analyzeGesture_landmarks_read_witness :
  analyzeGesture Samples.spread = analyzeGesture MoreSamples.spread_variant.
Proof.
  apply (analyzeGesture_landmarks_read Samples.spread
           MoreSamples.spread_variant).
  - cbn. lia.
  - cbn. lia.
  - intros i Hi.
    repeat (apply elem_of_cons in Hi as [-> | Hi]; [reflexivity|]).
    by apply elem_of_nil in Hi.
Defined.


Lemma white_canvas_bright (text : string) (size : R) :
  Pixels.bright (MoreSamples.white_canvas text size) 200 0 0.
Proof.
  exists 255%Z. split; [|lia].
  apply lookup_replicate_2. lia.
Qed.

Lemma samplePointsFromText_on_glyph_witness :
  (Sampler.samplePointsFromText (Some MoreSamples.white_canvas) "日" 2 140
     MoreSamples.half_draw 0%nat).2 = (0 + 2 * 2)%nat /\
  forall i, (i < 2)%nat ->
    exists px py z,
      (px < 200)%nat /\ (py < 200)%nat /\
      Pixels.bright (MoreSamples.white_canvas "日" 140) 200 px py /\
      Pixels.point_at
        (Sampler.samplePointsFromText (Some MoreSamples.white_canvas) "日" 2
           140 MoreSamples.half_draw 0%nat).1 i
      = Some ((INR px - 100) * 0.15, (100 - INR py) * 0.15, z) /\
      -1 <= z <= 1.
Proof.
  apply (samplePointsFromText_on_glyph MoreSamples.white_canvas "日" 2 140
           MoreSamples.half_draw 0 0 0).
  - lia.
  - lia.
  - apply white_canvas_bright.
Defined.

Lemma generateSphereCloud_point_draws_witness :
  (Sampler.generateSphereCloud 2 8 MoreSamples.half_draw 0%nat).2
    = (0 + 3 * 2)%nat /\
  (forall count' random' k',
     (1 < count')%nat ->
     (forall j, (j < 3)%nat ->
        random' (k' + 3 * 1 + j)%nat
        = MoreSamples.half_draw (0 + 3 * 1 + j)%nat) ->
     Pixels.point_at (Sampler.generateSphereCloud count' 8 random' k').1 1
     = Pixels.point_at
         (Sampler.generateSphereCloud 2 8 MoreSamples.half_draw 0%nat).1 1) /\
  exists a b c,
    Pixels.point_at
      (Sampler.generateSphereCloud 2 8 MoreSamples.half_draw 0%nat).1 1
    = Some (a, b, c) /\
    (8 = 8 -> -8 <= a <= 8 /\ -8 <= b <= 8 /\ -8 <= c <= 8).
Proof.
  apply (generateSphereCloud_point_draws 2 8 MoreSamples.half_draw 0 1). lia.
Defined.

Lemma animate_runs_witness :
  exists h_n ps_n buf_n,
    animate (fun _ => Samples.glyph_signal) (fun j => INR j / 60) 3
      Samples.system Samples.store = Some (h_n, ps_n) /\
    mounted ps_n h_n /\
    targets ps_n = targets Samples.system /\
    positions ps_n = positions Samples.system /\
    velocities ps_n = velocities Samples.system /\
    h_n !! positions Samples.system = Some buf_n /\
    length buf_n = (3 * PARTICLE_COUNT)%nat /\
    forall r, r <> positions Samples.system -> h_n !! r = Samples.store !! r.
Proof.
  apply (animate_runs (fun _ => Samples.glyph_signal) (fun j => INR j / 60)
           Samples.system Samples.store 3).
  exact sample_mounted.
Defined.

Lemma animate_not_mounted_witness :
  animate (fun _ => Samples.glyph_signal) (fun j => INR j / 60) 3
    (render None Samples.zero_draw 0%nat).1.2
    (render None Samples.zero_draw 0%nat).1.1
  = Some ((render None Samples.zero_draw 0%nat).1.1,
          (render None Samples.zero_draw 0%nat).1.2).
Proof.
  apply (animate_not_mounted (fun _ => Samples.glyph_signal)
           (fun j => INR j / 60)).
  apply (render_store None Samples.zero_draw 0).
Defined.

Lemma ticks_no_overshoot_witness :
  exists h_n ps_n c_n h' ps' c',
    ticks Samples.glyph_signal (fun j => INR j / 60) 3 Samples.system
      Samples.store = Some (h_n, ps_n) /\
    read h_n (positions Samples.system) (0 * 3 + 2) = Some c_n /\
    ticks Samples.glyph_signal (fun j => INR j / 60) 4 Samples.system
      Samples.store = Some (h', ps') /\
    read h' (positions Samples.system) (0 * 3 + 2) = Some c' /\
    Rmin c_n 10 <= c' <= Rmax c_n 10 /\
    Rabs (c' - 10) <= Rabs (c_n - 10) /\
    Rmin 0 10 <= c_n <= Rmax 0 10 /\
    (c_n = 10 -> c' = 10).
Proof.
  apply (ticks_no_overshoot Samples.system Samples.glyph_signal
           (fun j => INR j / 60) Samples.store 0 2 10 0 3).
  - exact sample_mounted.
  - done.
  - exact sample_particle.
  - by right.
  - apply sample_target. unfold PARTICLE_COUNT. lia.
  - apply sample_current. unfold PARTICLE_COUNT. lia.
Defined.

Lemma animate_rotation_witness :
  (exists h_n ps_n current_n,
     animate (fun _ => Samples.earlier_signal) (fun j => INR j / 60) 2
       Samples.system Samples.store = Some (h_n, ps_n) /\
     pointsRef ps_n = Some current_n /\
     (rotation_x current_n, rotation_y current_n)
       = Turning.rotation (fun _ => Samples.earlier_signal) (0, 0) 2 /\
     geometry_attributes_position_array current_n = 0%nat /\
     ((0 < 2)%nat ->
      geometry_attributes_position_needsUpdate current_n = true)) /\
  (forall signal' r0,
     (forall j, (j < 2)%nat ->
        position (signal' j) = position Samples.earlier_signal) ->
     Turning.rotation signal' r0 2
     = Turning.rotation (fun _ => Samples.earlier_signal) r0 2).
Proof.
  apply (animate_rotation (fun _ => Samples.earlier_signal)
           (fun j => INR j / 60) Samples.system Samples.store
           {| geometry_attributes_position_array := 0%nat;
              geometry_attributes_position_needsUpdate := false;
              rotation_x := 0; rotation_y := 0 |} 2).
  - exact sample_mounted.
  - reflexivity.
Defined.

Lemma render_seeds_sphere_witness :
  pointsRef (render None MoreSamples.half_draw 0%nat).1.2 = None /\
  positions (render None MoreSamples.half_draw 0%nat).1.2
    <> velocities (render None MoreSamples.half_draw 0%nat).1.2 /\
  (render None MoreSamples.half_draw 0%nat).1.1
    !! velocities (render None MoreSamples.half_draw 0%nat).1.2
    = Some (replicate (PARTICLE_COUNT * 3) 0) /\
  exists buf a b c,
    (render None MoreSamples.half_draw 0%nat).1.1
      !! positions (render None MoreSamples.half_draw 0%nat).1.2 = Some buf /\
    buf = sphere (targets (mount (render None MoreSamples.half_draw 0%nat).1.2))
    /\
    Pixels.point_at buf 0 = Some (a, b, c) /\
    -8 <= a <= 8 /\ -8 <= b <= 8 /\ -8 <= c <= 8.
Proof.
  apply (render_seeds_sphere None MoreSamples.half_draw 0 0).
  exact sample_particle.
Defined.

Lemma detections_end_at_short_frame_witness :
  detections ([(true, MoreSamples.one_hand)]
              ++ (true, mkResult (Some [Spec.still_hand 5]))
              :: [(true, MoreSamples.no_hand)]) initialHandState
  = detections [(true, MoreSamples.one_hand)] initialHandState.
Proof.
  apply (detections_end_at_short_frame [(true, MoreSamples.one_hand)]
           [(true, MoreSamples.no_hand)] (Spec.still_hand 5) []
           initialHandState).
  cbn. lia.
Defined.

Lemma useFrame_reads_signal_witness :
  fst <$> useFrame Samples.system Samples.glyph_signal 0 Samples.store
  = fst <$> useFrame Samples.system MoreSamples.glyph_signal_elsewhere 0
              Samples.store.
Proof.
  apply (useFrame_reads_signal Samples.system Samples.glyph_signal
           MoreSamples.glyph_signal_elsewhere 0 Samples.store).
  - reflexivity.
  - discriminate.
Defined.

Lemma other_store_mounted : mounted Samples.system MoreSamples.other_store.
Proof.
  split; [|split].
  - eexists. by split.
  - exists (<[3%nat := 7]> (Samples.flat 0)). split.
    + unfold MoreSamples.other_store. cbn [Samples.system mount positions].
      by rewrite lookup_insert_eq.
    + rewrite length_insert. apply length_replicate.
  - intros g. destruct g; apply length_replicate.
Qed.

Lemma other_store_current (j : nat) :
  (j < 3)%nat ->
  read MoreSamples.other_store (positions Samples.system) j = Some 0.
Proof.
  intros Hj. unfold read, MoreSamples.other_store.
  cbn [Samples.system mount positions].
  rewrite lookup_insert_eq. cbn [mbind option_bind].
  rewrite list_lookup_insert_ne by lia.
  apply lookup_replicate_2. unfold PARTICLE_COUNT. lia.
Qed.

Lemma useFrame_particles_independent_witness :
  exists h1' h2' ps',
    useFrame Samples.system Samples.glyph_signal 0 Samples.store
      = Some (h1', ps') /\
    useFrame Samples.system Samples.glyph_signal 0 MoreSamples.other_store
      = Some (h2', ps') /\
    forall axis, (axis < 3)%nat ->
      read h1' (positions Samples.system) (0 * 3 + axis)
      = read h2' (positions Samples.system) (0 * 3 + axis).
Proof.
  apply (useFrame_particles_independent Samples.system Samples.glyph_signal 0
           Samples.store MoreSamples.other_store 0).
  - exact sample_mounted.
  - exact other_store_mounted.
  - exact sample_particle.
  - intros axis Ha. rewrite sample_current, other_store_current; [done|..].
    + cbn. lia.
    + unfold PARTICLE_COUNT. lia.
Defined.

End ExtraWitnesses.
